(** * The SageMaker PyTorch workshop: script-adaptation contract

    A shallow embedding of the code carried by
    [notebooks/instructor_workshop.ipynb]:

    - the three [parser.add_argument] lines that bind the SageMaker container
      environment to command-line options, and [use_cuda = args.num_gpus > 0];
    - the data loaders over [datasets.MNIST(args.data_dir, ..., download=True)];
    - the save step [torch.save(model.state_dict(), os.path.join(...))];
    - the job definitions (hyperparameters, ranges, metric regexes);
    - the sample training output.

    The scripts under [scripts/] are not part of the sources at hand; what is
    needed of them is modelled from the specification and marked as such. *)

From Stdlib Require Import ZArith List Ascii String Bool Lia.
From Stdlib Require Import SpecFloat DecimalString DecimalPos DecimalZ.
From stdpp Require Import gmap strings list fin_maps.

Open Scope string_scope.
Open Scope Z_scope.

(* ===================================================================== *)
(** * Python built-ins used by the scripts *)
(* ===================================================================== *)

Module Py.

(** Text is [string]; matching and parsing go through [list ascii]. *)
Definition chars (s : string) : list ascii := list_ascii_of_string s.

(** Exceptions that reach the top level of a script. *)
Inductive exn : Type :=
| KeyError (key : string)             (* [os.environ[key]], key absent *)
| SystemExit (status : Z)             (* [sys.exit(status)], as argparse calls it *)
| TypeError (what : string)
| ZeroDivisionError
| ValueError (what : string)
| URLError (root : string)            (* the download of the data set failed *)
| FileNotFoundError (path : string)
| UnpicklingError (path : string).

Definition result (A : Type) : Type := exn + A.

Definition rbind {A B} (r : result A) (k : A -> result B) : result B :=
  match r with inr a => k a | inl e => inl e end.

(** ** [str(n)] and the [{}] format field for an [int] *)

Definition str (n : Z) : string := NilZero.string_of_int (Z.to_int n).

(** ** [int(s)] for a [str] argument

    Surrounding whitespace is stripped, one sign is allowed, then decimal
    digits with single underscores between digits.  Only ASCII text is
    modelled: in an ASCII [str] the white space that [int] strips is tab,
    line feed, vertical tab, form feed, carriage return and space. *)

Definition is_space (a : ascii) : bool :=
  let n := nat_of_ascii a in
  ((9 <=? n)%nat && (n <=? 13)%nat) || (n =? 32)%nat.

Definition is_digit (a : ascii) : bool :=
  let n := nat_of_ascii a in (48 <=? n)%nat && (n <=? 57)%nat.

Definition digit_val (a : ascii) : Z := Z.of_nat (nat_of_ascii a) - 48.

Fixpoint lstrip (l : list ascii) : list ascii :=
  match l with
  | a :: r => if is_space a then lstrip r else l
  | [] => []
  end.

Definition strip (l : list ascii) : list ascii :=
  rev (lstrip (rev (lstrip l))).

Fixpoint digits_val (acc : Z) (after_digit : bool) (l : list ascii) : option Z :=
  match l with
  | [] => if after_digit then Some acc else None
  | a :: r =>
      if is_digit a then digits_val (10 * acc + digit_val a) true r
      else if Ascii.eqb a "_" then
             if after_digit then digits_val acc false r else None
           else None
  end.

Definition int (s : string) : option Z :=
  match strip (chars s) with
  | a :: r =>
      if Ascii.eqb a "-" then Z.opp <$> digits_val 0 false r
      else if Ascii.eqb a "+" then digits_val 0 false r
      else digits_val 0 false (a :: r)
  | [] => None
  end.

(** ** [float] and the [{:.Nf}] format field

    A Python [float] is an IEEE-754 binary64 value; [spec_float] with
    precision 53 and maximal exponent 1024 is its specification. *)

Definition float : Type := spec_float.

Definition prec : Z := 53.
Definition emax : Z := 1024.

(** [float(n)] for an [int] [n], rounded to nearest even. *)
Definition float_of_int (n : Z) : float := binary_normalize prec emax n 0 false.

Definition fmul (x y : float) : float := SFmul prec emax x y.
Definition fadd (x y : float) : float := SFadd prec emax x y.

Definition is_zero (x : float) : bool :=
  match x with S754_zero _ => true | _ => false end.

(** [x / y] raises [ZeroDivisionError] when [y] is zero. *)
Definition fdiv (x y : float) : result float :=
  if is_zero y then inl ZeroDivisionError else inr (SFdiv prec emax x y).

(** The float nearest to [a / b], for [b] other than zero. *)
Definition quotient (a b : Z) : float :=
  SFdiv prec emax (float_of_int a) (float_of_int b).

(** Round [n / d] to the nearest integer, ties to even ([0 <= n], [0 < d]). *)
Definition div_nearest_even (n d : Z) : Z :=
  let q := n / d in
  let r := n mod d in
  match 2 * r ?= d with
  | Lt => q
  | Gt => q + 1
  | Eq => if Z.even q then q else q + 1
  end.

(** The magnitude [m * 2^e] scaled by [10^digits] and rounded to an integer. *)
Definition scaled (digits : nat) (m : positive) (e : Z) : Z :=
  let p := Z.pos m * 10 ^ Z.of_nat digits in
  if 0 <=? e then p * 2 ^ e else div_nearest_even p (2 ^ (- e)).

Fixpoint zeros (n : nat) : string :=
  match n with O => "" | S k => "0" ++ zeros k end.

(** [r] printed with a decimal point before its last [digits] digits. *)
Definition fixed (digits : nat) (r : Z) : string :=
  let unit := 10 ^ Z.of_nat digits in
  let frac := str (r mod unit) in
  match digits with
  | O => str r
  | S _ => str (r / unit) ++ "." ++ zeros (digits - String.length frac) ++ frac
  end.

Definition sign_text (s : bool) : string := if s then "-" else "".

Definition format_f (digits : nat) (x : float) : string :=
  match x with
  | S754_nan => "nan"
  | S754_infinity s => sign_text s ++ "inf"
  | S754_zero s => sign_text s ++ fixed digits 0
  | S754_finite s m e => sign_text s ++ fixed digits (scaled digits m e)
  end.

(** ** [os.path.join(a, b)] (posixpath, two arguments) *)

Definition starts_with_slash (s : string) : bool :=
  match s with String "/" _ => true | _ => false end.

Fixpoint ends_with_slash (s : string) : bool :=
  match s with
  | "" => false
  | String a "" => Ascii.eqb a "/"
  | String _ r => ends_with_slash r
  end.

Definition path_join (a b : string) : string :=
  if starts_with_slash b then b
  else if (String.length a =? 0)%nat || ends_with_slash a then a ++ b
       else a ++ "/" ++ b.

End Py.

(* ===================================================================== *)
(** * The numeric library behind the scripts *)
(* ===================================================================== *)

Inductive device : Type := Cpu | Cuda.

(** What the scripts use of [torch] and [torchvision].  Tensors, the network
    [Net] and the optimiser are opaque to the contract; each operation is a
    function of its arguments and of the state of the default random
    generator, which it returns updated when it draws from it.  What a
    download of the data set brings is decided outside the process; it is
    a function of the directory asked for. *)
Class Torch : Type := {
  Image : Type;                    (* one input sample *)
  Weights : Type;                  (* [model.state_dict()] of [Net] *)
  Optim : Type;                    (* Adadelta state and current learning rate *)
  Gen : Type;                      (* state of the default random generator *)
  manual_seed : Z -> Gen;                                    (* [torch.manual_seed] *)
  net_init : Gen -> Weights * Gen;                           (* [Net()] *)
  shuffle : Gen -> list (Image * Z) -> list (Image * Z) * Gen;  (* [shuffle=True] *)
  adadelta : Weights -> Py.float -> Optim;                   (* [optim.Adadelta] *)
  step_lr : Py.float -> Optim -> Optim;                      (* [scheduler.step()] *)
  train_batch : device -> Weights -> Optim -> list (Image * Z) -> Gen ->
                Weights * Optim * Py.float * Gen;
      (* [zero_grad], forward with dropout, [nll_loss], [backward], [step];
         the float is [loss.item()] *)
  nll_loss_sum : device -> Weights -> list (Image * Z) -> Py.float;
      (* evaluation mode: [F.nll_loss(output, target, reduction='sum').item()] *)
  argmax_forward : device -> Weights -> Image -> Z;
      (* evaluation mode: [output.argmax(dim=1)] for one sample *)
  torch_save : Weights -> list Byte.byte;                    (* [torch.save] *)
  torch_load : list Byte.byte -> option Weights;             (* [torch.load] *)
  mnist_fetch : string ->
                list (string * list Byte.byte) * list string
                * option (list (Image * Z) * list (Image * Z))
      (* [datasets.MNIST(root, download=True)] on a [root] that does not hold
         the data set: the files the download writes, by path, the lines it
         prints, and the training and test splits it ends with, or [None]
         when it fails on the way *)
}.

(** The library contract the scripts rely on. *)
Class TorchLaws (T : Torch) : Prop := {
  shuffle_perm : forall g l, Permutation (fst (shuffle g l)) l;
  load_save : forall w, torch_load (torch_save w) = Some w
}.

(* ===================================================================== *)
(** * The process a script runs in *)
(* ===================================================================== *)

Section Process.
Context {T : Torch}.

(** Files by path, the lines written to standard output by [print], the
    default random generator, and the devices the library was asked to
    compute on, latest last: one entry for the model when it is placed on
    its device and one for each batch computed.  What argparse
    writes when it exits (usage, help) is not part of [stdout]. *)
Record proc : Type := Proc {
  fs : gmap string (list Byte.byte);
  stdout : list string;
  gen : Gen;
  used : list device
}.

(** A step of a script: it ends with a value or with an exception, and
    leaves the process in a state either way. *)
Definition M (A : Type) : Type := proc -> Py.result A * proc.

Definition ret {A} (a : A) : M A := fun p => (inr a, p).
Definition raise {A} (e : Py.exn) : M A := fun p => (inl e, p).

Definition bind {A B} (m : M A) (k : A -> M B) : M B :=
  fun p => match m p with
           | (inr a, p') => k a p'
           | (inl e, p') => (inl e, p')
           end.

Definition lift {A} (r : Py.result A) : M A :=
  match r with inr a => ret a | inl e => raise e end.

(** [print(line)] *)
Definition print (line : string) : M unit :=
  fun p => (inr tt, Proc (fs p) (stdout p ++ [line]) (gen p) (used p)).

(** An operation that draws from the default generator. *)
Definition draw {A} (f : Gen -> A * Gen) : M A :=
  fun p => let '(a, g) := f (gen p) in (inr a, Proc (fs p) (stdout p) g (used p)).

(** A library call that computes on [dev], and may draw. *)
Definition on {A} (dev : device) (f : device -> Gen -> A * Gen) : M A :=
  fun p => let '(a, g) := f dev (gen p) in
           (inr a, Proc (fs p) (stdout p) g (used p ++ [dev])).

(** A library call that computes each of [batches] on [dev]. *)
Definition on_each {A B} (dev : device) (batches : list B) (f : device -> A) : M A :=
  fun p => (inr (f dev),
            Proc (fs p) (stdout p) (gen p) (used p ++ repeat dev (length batches))).

Definition set_gen (g : Gen) : M unit :=
  fun p => (inr tt, Proc (fs p) (stdout p) g (used p)).

(** [open(path, 'wb').write(data)], replacing what was there. *)
Definition write_file (path : string) (data : list Byte.byte) : M unit :=
  fun p => (inr tt, Proc (<[path := data]> (fs p)) (stdout p) (gen p) (used p)).

Definition read_file (path : string) : M (list Byte.byte) :=
  fun p => match fs p !! path with
           | Some data => (inr data, p)
           | None => (inl (Py.FileNotFoundError path), p)
           end.

End Process.

Declare Scope script_scope.
Delimit Scope script_scope with script.
Notation "'let*' x ':=' m 'in' k" := (bind m (fun x => k))
  (at level 10, x pattern, m at level 100, k at level 200) : script_scope.
Notation "m ';;;' k" := (bind m (fun _ => k))
  (at level 100, k at level 200, right associativity) : script_scope.

(* ===================================================================== *)
(** * The argument parser of the training script *)
(* ===================================================================== *)

(** [parser.parse_args()] as [Lib/argparse.py] of CPython 3.11 runs it on a
    parser whose options each take one argument: how an argument string is
    told from an option (exact option strings, [--option=value], unique
    prefixes of long options, negative numbers, strings with a space), the
    options consumed in turn, each value converted when it is read, and the
    strings left over reported at the end.  The original script's own
    [add_argument] lines are not in the sources: the parser here holds the
    three options of the notebook and [-h], and the values of the others
    come with the record of hyperparameters.  Every error ends in
    [parser.error], that is exit status 2; help ends in exit status 0. *)
Module Argparse.
Import Py.

(** The actions of the parser: [-h]/[--help], which [ArgumentParser()]
    adds itself, and the three options of the notebook. *)
Inductive action : Type := Help | ModelDir | DataDir | NumGpus.

(** [parser._option_string_actions] *)
Definition option_strings : list (string * action) :=
  [ ("-h", Help); ("--help", Help);
    ("--model-dir", ModelDir); ("--data-dir", DataDir); ("--num-gpus", NumGpus) ].

Fixpoint assoc {A} (k : string) (d : list (string * A)) : option A :=
  match d with
  | [] => None
  | (k', v) :: r => if String.eqb k' k then Some v else assoc k r
  end.

(** [s.split('=', 1)] when [s] holds an equals sign. *)
Fixpoint split_eq (s : string) : option (string * string) :=
  match s with
  | "" => None
  | String c r =>
      if Ascii.eqb c "=" then Some ("", r)
      else match split_eq r with
           | Some (a, b) => Some (String c a, b)
           | None => None
           end
  end.

Definition has_space (s : string) : bool := existsb (Ascii.eqb " ") (chars s).

Fixpoint all_digits (l : list ascii) : bool :=
  match l with
  | [] => true
  | a :: r => is_digit a && all_digits r
  end.

(** What is left of [l] after its leading digits. *)
Fixpoint after_digits (l : list ascii) : list ascii :=
  match l with
  | a :: r => if is_digit a then after_digits r else l
  | [] => []
  end.

(** [$] matches at the end and before a line feed that ends the text. *)
Definition at_end (l : list ascii) : bool :=
  match l with
  | [] => true
  | [a] => Ascii.eqb a (ascii_of_nat 10)
  | _ => false
  end.

(** One or more digits, then the end. *)
Definition digits_then_end (l : list ascii) : bool :=
  match l with
  | a :: _ => is_digit a && at_end (after_digits l)
  | [] => false
  end.

(** [parser._negative_number_matcher], ['^-\d+$|^-\d*\.\d+$'], on ASCII. *)
Definition negative_number (s : string) : bool :=
  match chars s with
  | a :: r =>
      Ascii.eqb a "-"
      && (digits_then_end r
          || match after_digits r with
             | b :: f => Ascii.eqb b "." && digits_then_end f
             | [] => false
             end)
  | [] => false
  end.

(** How [_parse_optional] reads one argument string. *)
Inductive word : Type :=
| Arg                       (* ['A']: an argument *)
| Opt (option_string : string) (a : action) (explicit_arg : option string)
                            (* ['O']: an option of the parser *)
| Unknown                   (* ['O']: an option the parser does not have *)
| Ambiguous.                (* a prefix of several options: an error at once *)

(** [parser._get_option_tuples(t)] for [t] of two characters or more that
    starts with [-]. *)
Definition option_tuples (t : string) : list word :=
  match t with
  | String _ (String "-" _) =>
      let '(p, e) := match split_eq t with
                     | Some (p, e) => (p, Some e)
                     | None => (t, None)
                     end in
      flat_map (fun '(s, a) => if String.prefix p s then [Opt s a e] else [])
               option_strings
  | String c1 (String c2 rest) =>
      flat_map (fun '(s, a) =>
                  if String.eqb s (String c1 (String c2 "")) then [Opt s a (Some rest)]
                  else if String.prefix t s then [Opt s a None]
                  else [])
               option_strings
  | _ => []
  end.

(** [parser._parse_optional(t)] *)
Definition parse_optional (t : string) : word :=
  match t with
  | "" => Arg
  | String c r =>
      if negb (Ascii.eqb c "-") then Arg
      else
        match assoc t option_strings with
        | Some a => Opt t a None
        | None =>
            match r with
            | "" => Arg
            | _ =>
                match match split_eq t with
                      | Some (p, e) =>
                          match assoc p option_strings with
                          | Some a => Some (Opt p a (Some e))
                          | None => None
                          end
                      | None => None
                      end with
                | Some w => w
                | None =>
                    match option_tuples t with
                    | _ :: _ :: _ => Ambiguous
                    | [w] => w
                    | [] =>
                        if negative_number t then Arg
                        else if has_space t then Arg
                        else Unknown
                    end
                end
            end
        end
  end.

(** The pattern of the command line: each argument string as
    [_parse_optional] reads it, up to the first [--]. *)
Inductive mark : Type :=
| W (w : word)
| Dashes.                   (* ['-']: the string [--] *)

Fixpoint pattern (av : list string) : list (string * mark) :=
  match av with
  | [] => []
  | t :: r =>
      if String.eqb t "--" then (t, Dashes) :: map (fun u => (u, W Arg)) r
      else (t, W (parse_optional t)) :: pattern r
  end.

Definition is_ambiguous (m : string * mark) : bool :=
  match snd m with W Ambiguous => true | _ => false end.

(** A value as [take_action] stores it.  An explicit argument that is the
    string [--] is dropped before the conversion, and the option is left
    with an empty list. *)
Inductive stored (A : Type) : Type :=
| Value (v : A)
| EmptyList.
Arguments Value {A} v.
Arguments EmptyList {A}.

(** What the command line has set so far. *)
Record seen : Type := Seen {
  seen_model_dir : option (stored string);
  seen_data_dir : option (stored string);
  seen_num_gpus : option (stored Z);
  extras : bool             (* some argument string was left over *)
}.

Definition nothing : seen := Seen None None None false.

(** [_get_values] and [take_action]: the value converted by the option's
    [type] and stored; [None] when [int] rejects it. *)
Definition convert (a : action) (v : string) (s : seen) : option seen :=
  match a with
  | ModelDir => Some (Seen (Some (Value v)) (seen_data_dir s) (seen_num_gpus s) (extras s))
  | DataDir => Some (Seen (seen_model_dir s) (Some (Value v)) (seen_num_gpus s) (extras s))
  | NumGpus =>
      match int v with
      | Some n => Some (Seen (seen_model_dir s) (seen_data_dir s) (Some (Value n)) (extras s))
      | None => None
      end
  | Help => Some s
  end.

Definition store_empty (a : action) (s : seen) : seen :=
  match a with
  | ModelDir => Seen (Some EmptyList) (seen_data_dir s) (seen_num_gpus s) (extras s)
  | DataDir => Seen (seen_model_dir s) (Some EmptyList) (seen_num_gpus s) (extras s)
  | NumGpus => Seen (seen_model_dir s) (seen_data_dir s) (Some EmptyList) (extras s)
  | Help => s
  end.

Definition store (a : action) (v : string) (s : seen) : option seen :=
  if String.eqb v "--" then Some (store_empty a s) else convert a v s.

Definition left_over (s : seen) : seen :=
  Seen (seen_model_dir s) (seen_data_dir s) (seen_num_gpus s) true.

(** [-h] with text attached: every character must be an [h] again. *)
Fixpoint only_h (e : string) : bool :=
  match e with
  | "" => false
  | String c "" => Ascii.eqb c "h"
  | String c r => Ascii.eqb c "h" && only_h r
  end.

Definition single_dash (option_string : string) : bool :=
  match option_string with
  | String _ (String c _) => negb (Ascii.eqb c "-")
  | _ => false
  end.

(** The loop of [_parse_known_args]: the options in turn, each with the
    argument it takes.  The result is what was set, or the status the
    parser exits with. *)
Fixpoint consume (ms : list (string * mark)) (s : seen) : Z + seen :=
  match ms with
  | [] => inr s
  | (_, W (Opt o Help None)) :: _ => inl 0
  | (_, W (Opt o Help (Some e))) :: _ =>
      if single_dash o && only_h e then inl 0 else inl 2
  | (_, W (Opt o a (Some e))) :: r =>
      match store a e s with
      | Some s' => consume r s'
      | None => inl 2
      end
  | (_, W (Opt o a None)) :: r =>
      match r with
      | (v, W Arg) :: r' =>
          match store a v s with
          | Some s' => consume r' s'
          | None => inl 2
          end
      | _ => inl 2
      end
  | _ :: r => consume r (left_over s)
  end.

(** [parser.parse_args(av)] up to the defaults: the options the command
    line sets, or the exit status. *)
Definition scan (av : list string) : Z + seen :=
  let ms := pattern av in
  if existsb is_ambiguous ms then inl 2
  else match consume ms nothing with
       | inr s => if extras s then inl 2 else inr s
       | inl status => inl status
       end.

End Argparse.

(* ===================================================================== *)
(** * The training script, [scripts/sagemaker_pytorch_mnist.py] *)
(* ===================================================================== *)

Module Script.
Import Py.

(** ** Arguments *)

(** The hyperparameters of the original script, as [parse_args] returns
    them.  [log_interval] is the script's logging period in batches. *)
Record hyperparameters : Type := {
  batch_size : Z;
  test_batch_size : Z;
  epochs : Z;
  lr : float;
  gamma : float;
  seed : Z;
  log_interval : Z;
  save_model : bool
}.

(** [args] after the notebook's three additions. *)
Record namespace : Type := {
  hp :> hyperparameters;
  model_dir : string;
  data_dir : string;
  num_gpus : Z
}.

(** The command line, [sys.argv[1:]]. *)
Definition argv : Type := list string.

(** [os.environ[key]] *)
Definition environ_get (env : gmap string string) (key : string) : result string :=
  match env !! key with
  | Some v => inr v
  | None => inl (KeyError key)
  end.

(** The default of an option the command line has not set.  A default that
    is a string goes through the option's [type]: [--num-gpus] has
    [type=int], and the parser exits when [int] rejects the text. *)
Definition or_default_int (v : option (Argparse.stored Z)) (default : string)
    : result (Argparse.stored Z) :=
  match v with
  | Some x => inr x
  | None =>
      match int default with
      | Some n => inr (Argparse.Value n)
      | None => inl (SystemExit 2)
      end
  end.

Definition or_default_str (v : option (Argparse.stored string)) (default : string)
    : Argparse.stored string :=
  match v with
  | Some x => x
  | None => Argparse.Value default
  end.

(** The value the script works with.  An option left with an empty list
    (see [Argparse.stored]) makes the script fail with a [TypeError] where
    it first uses the value; the model raises it as soon as the arguments
    are parsed. *)
Definition usable {A} (what : string) (v : Argparse.stored A) : result A :=
  match v with
  | Argparse.Value x => inr x
  | Argparse.EmptyList => inl (TypeError what)
  end.

(** <<
    parser.add_argument('--model-dir', type=str, default=os.environ['SM_MODEL_DIR'])
    parser.add_argument('--data-dir', type=str, default=os.environ['SM_CHANNEL_TRAINING'])
    parser.add_argument('--num-gpus', type=int, default=os.environ['SM_NUM_GPUS'])
    args = parser.parse_args()
    >>
    The three defaults are evaluated, in this order, while the parser is
    built; the command line is read afterwards. *)
Definition parse_args (env : gmap string string) (av : argv)
    (h : hyperparameters) : result namespace :=
  rbind (environ_get env "SM_MODEL_DIR") (fun d_model =>
  rbind (environ_get env "SM_CHANNEL_TRAINING") (fun d_data =>
  rbind (environ_get env "SM_NUM_GPUS") (fun d_gpus =>
  match Argparse.scan av with
  | inl status => inl (SystemExit status)
  | inr s =>
      rbind (or_default_int (Argparse.seen_num_gpus s) d_gpus) (fun n =>
      rbind (usable "num_gpus" n) (fun n =>
      rbind (usable "data_dir" (or_default_str (Argparse.seen_data_dir s) d_data)) (fun d =>
      rbind (usable "model_dir" (or_default_str (Argparse.seen_model_dir s) d_model)) (fun m =>
      inr {| hp := h; model_dir := m; data_dir := d; num_gpus := n |}))))
  end))).

(** The argument the command line gives for the option [opt], in any of
    its spellings; a later occurrence replaces an earlier one. *)
Fixpoint given (ms : list (string * Argparse.mark)) : list (Argparse.action * string) :=
  match ms with
  | [] => []
  | (_, Argparse.W (Argparse.Opt _ a (Some e))) :: r => (a, e) :: given r
  | (_, Argparse.W (Argparse.Opt _ a None)) :: r =>
      match r with
      | (v, Argparse.W Argparse.Arg) :: r' => (a, v) :: given r'
      | _ => given r
      end
  | _ :: r => given r
  end.

Definition same_action (a b : Argparse.action) : bool :=
  match a, b with
  | Argparse.Help, Argparse.Help | Argparse.ModelDir, Argparse.ModelDir
  | Argparse.DataDir, Argparse.DataDir | Argparse.NumGpus, Argparse.NumGpus => true
  | _, _ => false
  end.

Fixpoint last_given (a : Argparse.action) (l : list (Argparse.action * string))
    : option string :=
  match l with
  | [] => None
  | (b, v) :: r =>
      match last_given a r with
      | Some x => Some x
      | None => if same_action a b then Some v else None
      end
  end.

Definition argv_lookup (opt : string) (av : argv) : option string :=
  match Argparse.assoc opt Argparse.option_strings with
  | Some a => last_given a (given (Argparse.pattern av))
  | None => None
  end.

(** A command line made of overrides only: each option by its full name,
    followed by its value. *)
Definition overrides (ovs : list (string * string)) : argv :=
  flat_map (fun ov => [fst ov; snd ov]) ovs.

(** The override in force for [opt]: the last one given. *)
Fixpoint override (opt : string) (ovs : list (string * string)) : option string :=
  match ovs with
  | [] => None
  | (o, v) :: r =>
      match override opt r with
      | Some x => Some x
      | None => if String.eqb o opt then Some v else None
      end
  end.

(** The variables the script reads. *)
Definition sm_variables : list string :=
  [ "SM_MODEL_DIR"; "SM_CHANNEL_TRAINING"; "SM_NUM_GPUS" ].

(** An item of configuration resolved as section 4.1 words it: the
    explicit override when there is one, the variable otherwise. *)
Definition resolve (env : gmap string string) (av : argv)
    (variable opt : string) : option string :=
  match argv_lookup opt av with
  | Some v => Some v
  | None => env !! variable
  end.

(** The configuration surface in the words of the specification
    (section 6): variables [MODEL_DIR], [DATA_DIR] and [NUM_GPUS]. *)
Definition stated_config (env : gmap string string) (av : argv)
    : option (string * string * Z) :=
  match resolve env av "MODEL_DIR" "--model-dir",
        resolve env av "DATA_DIR" "--data-dir",
        resolve env av "NUM_GPUS" "--num-gpus" with
  | Some m, Some d, Some n =>
      match int n with Some g => Some (m, d, g) | None => None end
  | _, _, _ => None
  end.

(** [use_cuda = args.num_gpus > 0] *)
Definition use_cuda (args : namespace) : bool := 0 <? num_gpus args.

(** The line it replaces:
    [use_cuda = not args.no_cuda and torch.cuda.is_available()]. *)
Definition use_cuda_original (no_cuda cuda_is_available : bool) : bool :=
  negb no_cuda && cuda_is_available.

(** [device = torch.device("cuda" if use_cuda else "cpu")] *)
Definition device_of (cuda : bool) : device := if cuda then Cuda else Cpu.

(** ** Log lines

    Modelled from the spec: the [print] calls of the training script are
    not in the sources; the two formats are those of section 4.1,
    [Train Epoch: {epoch} [{done}/{total} ({pct}%)]\tLoss: {loss:.6f}] with
    the percentage printed without decimals, as in the sample output, and
    [Test set: Average loss: {avg_loss:.4f}, Accuracy: {correct}/{total} ({pct:.0f}%)]. *)

Definition tab : string := String (ascii_of_nat 9) "".

Definition train_line (epoch done total : Z) (pct loss : float) : string :=
  "Train Epoch: " ++ str epoch ++ " [" ++ str done ++ "/" ++ str total
    ++ " (" ++ format_f 0 pct ++ "%)]" ++ tab ++ "Loss: " ++ format_f 6 loss.

Definition test_line (avg_loss : float) (correct total : Z) (pct : float) : string :=
  "Test set: Average loss: " ++ format_f 4 avg_loss ++ ", Accuracy: "
    ++ str correct ++ "/" ++ str total ++ " (" ++ format_f 0 pct ++ "%)".

(** [100. * k / n] *)
Definition percent (k n : Z) : result float :=
  fdiv (fmul (float_of_int 100) (float_of_int k)) (float_of_int n).

(** Its value when [n] is not zero. *)
Definition percent_value (k n : Z) : float :=
  SFdiv prec emax (fmul (float_of_int 100) (float_of_int k)) (float_of_int n).

(** The integer that [{:.0f}] prints for a float that is zero or positive
    and finite. *)
Definition whole (x : float) : option Z :=
  match x with
  | S754_zero false => Some 0
  | S754_finite false m e => Some (scaled 0 m e)
  | _ => None
  end.

Definition whole_percent_ok (total k : Z) : bool :=
  match whole (percent_value k total) with
  | Some z => (0 <=? z) && (z <=? 100)
  | None => false
  end.

(** [a, a + 1, ..., a + n - 1] *)
Fixpoint count_from (a : Z) (n : nat) : list Z :=
  match n with
  | O => []
  | S k => a :: count_from (a + 1) k
  end.

(** [a % b] on [int]: the sign follows the divisor, as [Z.modulo] does. *)
Definition imod (a b : Z) : result Z :=
  if b =? 0 then inl ZeroDivisionError else inr (a mod b).

Definition len {A} (l : list A) : Z := Z.of_nat (length l).

(** [enumerate(l)] *)
Fixpoint enumerate_from {A} (i : Z) (l : list A) : list (Z * A) :=
  match l with
  | [] => []
  | x :: r => (i, x) :: enumerate_from (i + 1) r
  end.

Definition enumerate {A} (l : list A) : list (Z * A) := enumerate_from 0 l.

(** [range(1, n + 1)] *)
Definition epoch_range (n : Z) : list Z := map Z.of_nat (seq 1 (Z.to_nat n)).

Section Run.
Context {T : Torch}.
Local Open Scope script_scope.

Definition sample : Type := Image * Z.

(** The files of a download, written in turn. *)
Definition write_files (files : list (string * list Byte.byte)) : M unit :=
  fun p => (inr tt,
            Proc (fold_left (fun m f => <[fst f := snd f]> m) files (fs p))
                 (stdout p) (gen p) (used p)).

Definition print_lines (lines : list string) : M unit :=
  fun p => (inr tt, Proc (fs p) (stdout p ++ lines) (gen p) (used p)).

(** <<
    datasets.MNIST(args.data_dir, train=True, download=True, ...)
    datasets.MNIST(args.data_dir, train=False, ...)
    >>
    [disk] holds the data sets that are in place when the run starts, by
    root directory: the training split and the test split.  Where the
    root holds none, [download=True] fetches it: files are written under
    the root and progress is printed, and the run goes on with the splits
    fetched unless the download failed. *)
Definition load_mnist (disk : gmap string (list sample * list sample))
    (root : string) : M (list sample * list sample) :=
  match disk !! root with
  | Some d => ret d
  | None =>
      let '(files, lines, fetched) := mnist_fetch root in
      write_files files ;;;
      print_lines lines ;;;
      match fetched with
      | Some d => ret d
      | None => raise (URLError root)
      end
  end.

(** ** [torch.utils.data.DataLoader(dataset, batch_size, shuffle=True)] *)

Record loader : Type := Loader {
  dataset : list sample;
  per_batch : Z
}.

Definition data_loader (d : list sample) (bs : Z) : result loader :=
  if bs <=? 0 then inl (ValueError "batch_size should be a positive integer value")
  else inr (Loader d bs).

(** [len(loader)] *)
Definition loader_len (ld : loader) : Z :=
  (len (dataset ld) + per_batch ld - 1) / per_batch ld.

Definition batch_at (bs : nat) (l : list sample) (k : nat) : list sample :=
  firstn bs (skipn (k * bs) l).

Definition batches (ld : loader) (l : list sample) : list (list sample) :=
  map (batch_at (Z.to_nat (per_batch ld)) l) (seq 0 (Z.to_nat (loader_len ld))).

(** One pass over the loader: a fresh shuffle, cut into batches. *)
Definition iterate (ld : loader) : M (list (list sample)) :=
  let* l := draw (fun g => shuffle g (dataset ld)) in
  ret (batches ld l).

(** ** [train] and [test]

    Modelled from the spec: the bodies of [train], [test] and [main] are
    in [scripts/], not in the sources.  Per section 4.1 an epoch visits
    every batch, applies a gradient update and periodically prints a
    progress line; evaluation follows every epoch, updates no weight and
    prints the summary line; the seed is applied before the model is
    built and before the data is shuffled.  The model is placed on the
    device chosen from [use_cuda] when it is built, and every batch is
    computed there. *)

Definition log_progress (args : namespace) (epoch total batches_n : Z)
    (batch_idx : Z) (data : list sample) (loss : float) : M unit :=
  let* r := lift (imod batch_idx (log_interval args)) in
  if r =? 0 then
    let* pct := lift (percent batch_idx batches_n) in
    print (train_line epoch (batch_idx * len data) total pct loss)
  else ret tt.

(** What batch [batch_idx] adds to the output when the loss of batch [k] is
    [loss_of k]. *)
Definition progress_line (interval epoch total batches_n : Z) (loss_of : Z -> float)
    (b : Z * list sample) : list string :=
  if fst b mod interval =? 0 then
    [train_line epoch (fst b * len (snd b)) total
       (percent_value (fst b) batches_n) (loss_of (fst b))]
  else [].

Fixpoint train_loop (args : namespace) (dev : device) (epoch total batches_n : Z)
    (w : Weights) (o : Optim) (todo : list (Z * list sample))
    : M (Weights * Optim) :=
  match todo with
  | [] => ret (w, o)
  | (batch_idx, data) :: rest =>
      let* (w', o', loss) :=
        on dev (fun d g => let '(w', o', loss, g') := train_batch d w o data g in
                           ((w', o', loss), g')) in
      log_progress args epoch total batches_n batch_idx data loss ;;;
      train_loop args dev epoch total batches_n w' o' rest
  end.

Definition train (args : namespace) (dev : device) (ld : loader)
    (w : Weights) (o : Optim) (epoch : Z) : M (Weights * Optim) :=
  let* bs := iterate ld in
  train_loop args dev epoch (len (dataset ld)) (loader_len ld) w o (enumerate bs).

Definition count_correct (dev : device) (w : Weights) (data : list sample) : Z :=
  len (List.filter (fun s : sample => argmax_forward dev w (fst s) =? snd s) data).

Fixpoint test_loop (dev : device) (w : Weights) (test_loss : float) (correct : Z)
    (todo : list (list sample)) : float * Z :=
  match todo with
  | [] => (test_loss, correct)
  | data :: rest =>
      test_loop dev w (fadd test_loss (nll_loss_sum dev w data))
        (correct + count_correct dev w data) rest
  end.

(** The text printed starts and ends with a newline: a blank line, the
    summary line, a blank line. *)
Definition test (dev : device) (ld : loader) (w : Weights) : M unit :=
  let* bs := iterate ld in
  let* (test_loss, correct) :=
    on_each dev bs (fun d => test_loop d w (float_of_int 0) 0 bs) in
  let total := len (dataset ld) in
  let* avg := lift (fdiv test_loss (float_of_int total)) in
  let* pct := lift (percent correct total) in
  print "" ;;; print (test_line avg correct total pct) ;;; print "".

Fixpoint epoch_loop (args : namespace) (dev : device) (train_ld test_ld : loader)
    (w : Weights) (o : Optim) (todo : list Z) : M (Weights * Optim) :=
  match todo with
  | [] => ret (w, o)
  | epoch :: rest =>
      let* (w', o') := train args dev train_ld w o epoch in
      test dev test_ld w' ;;;
      epoch_loop args dev train_ld test_ld w' (step_lr (gamma args) o') rest
  end.

(** ** The save step, from the notebook
    <<
    if args.save_model:
        model_path = os.path.join(args.model_dir, "mnist_cnn.pt")
        torch.save(model.state_dict(), model_path)
    >> *)
Definition model_path (args : namespace) : string :=
  path_join (model_dir args) "mnist_cnn.pt".

Definition save_step (args : namespace) (w : Weights) : M unit :=
  if save_model args then write_file (model_path args) (torch_save w)
  else ret tt.

(** ** [main] *)

(** From the loaders to the trained weights. *)
Definition learn (args : namespace) (dev : device)
    (sets : list sample * list sample) : M Weights :=
  let* train_ld := lift (data_loader (fst sets) (batch_size args)) in
  let* test_ld := lift (data_loader (snd sets) (test_batch_size args)) in
  let* w0 := on dev (fun _ g => net_init g) in
  let o0 := adadelta w0 (lr args) in
  let* (w, _) := epoch_loop args dev train_ld test_ld w0 o0
                    (epoch_range (epochs args)) in
  ret w.

Definition training (args : namespace)
    (disk : gmap string (list sample * list sample)) : M Weights :=
  let cuda := use_cuda args in
  set_gen (manual_seed (seed args)) ;;;
  let dev := device_of cuda in
  let* sets := load_mnist disk (data_dir args) in
  learn args dev sets.

Definition main (env : gmap string string) (av : argv) (h : hyperparameters)
    (disk : gmap string (list sample * list sample)) : M unit :=
  let* args := lift (parse_args env av h) in
  let* w := training args disk in
  save_step args w.

End Run.

End Script.

(* ===================================================================== *)
(** * Regular expressions of the metric definitions *)
(* ===================================================================== *)

(** The fragment of Python's [re] that the notebook's metric definitions
    use: literal characters, escaped characters, [.], [.+] (greedy) and
    capture groups that do not nest. *)
Module Re.

Inductive item : Type :=
| Lit (a : ascii)      (* the character itself *)
| Any                  (* [.] : any character but a newline *)
| AnyPlus              (* [.+] : one or more, as many as possible *)
| Open                 (* [(] *)
| Close.               (* [)] *)

Definition newline : ascii := ascii_of_nat 10.

Definition special (a : ascii) : bool :=
  existsb (Ascii.eqb a) (Py.chars "*+?[]{}|^$").

(** A backslash makes a punctuation character literal; before a letter or a
    digit it means a class or a reference, which the fragment leaves out. *)
Definition alphanumeric (a : ascii) : bool :=
  let n := nat_of_ascii a in
  ((48 <=? n)%nat && (n <=? 57)%nat) || ((65 <=? n)%nat && (n <=? 90)%nat)
  || ((97 <=? n)%nat && (n <=? 122)%nat).

(** Pattern text to items; [None] outside the fragment. *)
Fixpoint compile (in_group : bool) (p : list ascii) : option (list item) :=
  match p with
  | [] => if in_group then None else Some []
  | a :: r =>
      if Ascii.eqb a "\" then
        match r with
        | b :: r' => if alphanumeric b then None
                     else cons (Lit b) <$> compile in_group r'
        | [] => None
        end
      else if Ascii.eqb a "." then
        match r with
        | b :: r' =>
            if Ascii.eqb b "+" then cons AnyPlus <$> compile in_group r'
            else cons Any <$> compile in_group r
        | [] => Some [Any]
        end
      else if Ascii.eqb a "(" then
        if in_group then None else cons Open <$> compile true r
      else if Ascii.eqb a ")" then
        if in_group then cons Close <$> compile false r else None
      else if special a then None
      else cons (Lit a) <$> compile in_group r
  end.

(** The text consumed since the open parenthesis, latest character first. *)
Definition push (c : ascii) (cur : option (list ascii)) : option (list ascii) :=
  cons c <$> cur.

(** Backtracking match of [items] at the head of [s].  [cur] is the group
    being captured, [caps] the groups already closed.  [.+] tries the
    longest run first and gives back one character at a time. *)
Fixpoint run (items : list item) (s : list ascii) (cur : option (list ascii))
    (caps : list string) {struct items} : option (list string) :=
  match items with
  | [] => Some caps
  | Lit a :: r =>
      match s with
      | c :: s' => if Ascii.eqb a c then run r s' (push c cur) caps else None
      | [] => None
      end
  | Any :: r =>
      match s with
      | c :: s' => if Ascii.eqb c newline then None else run r s' (push c cur) caps
      | [] => None
      end
  | AnyPlus :: r =>
      (fix more (s : list ascii) (cur : option (list ascii)) {struct s} :=
         match s with
         | c :: s' =>
             if Ascii.eqb c newline then None
             else match more s' (push c cur) with
                  | Some g => Some g
                  | None => run r s' (push c cur) caps
                  end
         | [] => None
         end) s cur
  | Open :: r => run r s (Some []) caps
  | Close :: r =>
      match cur with
      | Some acc => run r s None (caps ++ [string_of_list_ascii (rev acc)])
      | None => None
      end
  end.

(** [re.search]: the first position at which the pattern matches. *)
Fixpoint search_at (items : list item) (s : list ascii) : option (list string) :=
  match run items s None [] with
  | Some g => Some g
  | None => match s with
            | _ :: s' => search_at items s'
            | [] => None
            end
  end.

(** The groups of [re.search(pattern, line)]; [None] when nothing matches
    or the pattern is outside the fragment. *)
Definition search (pattern line : string) : option (list string) :=
  match compile false (Py.chars pattern) with
  | Some items => search_at items (Py.chars line)
  | None => None
  end.

(** The value a metric definition extracts: the first group. *)
Definition metric_value (pattern line : string) : option string :=
  match search pattern line with
  | Some (g :: _) => Some g
  | _ => None
  end.

End Re.

(* ===================================================================== *)
(** * The job definitions of the notebook *)
(* ===================================================================== *)

Module Notebook.

(** A value of a [hyperparameters] dictionary. *)
Inductive value : Type :=
| VInt (n : Z)
| VFloat (literal : string)
| VStr (s : string).

(** [estimator = PyTorch(..., hyperparameters={...})] of the training job. *)
Definition training_hyperparameters : list (string * value) :=
  [ ("batch-size", VInt 64);
    ("test-batch-size", VInt 1000);
    ("epochs", VInt 10);
    ("lr", VFloat "1.0");
    ("gamma", VFloat "0.7");
    ("seed", VInt 1);
    ("save-model", VStr "True") ].

(** [hyperparameters] of the estimator handed to the tuner. *)
Definition tuning_hyperparameters : list (string * value) :=
  [ ("batch-size", VInt 64);
    ("test-batch-size", VInt 1000);
    ("epochs", VInt 5);
    ("seed", VInt 1);
    ("save-model", VStr "True") ].

(** [ContinuousParameter(min, max, scaling_type=...)] *)
Record continuous_parameter : Type := {
  min_value : string;
  max_value : string;
  scaling_type : string
}.

Definition hyperparameter_ranges : list (string * continuous_parameter) :=
  [ ("lr", {| min_value := "0.001"; max_value := "1.0"; scaling_type := "Logarithmic" |});
    ("gamma", {| min_value := "0.01"; max_value := "0.9"; scaling_type := "Auto" |}) ].

(** The names a job definition hands to the script. *)
Definition keys {A} (d : list (string * A)) : list string := map fst d.

Definition training_job_names : list string := keys training_hyperparameters.

Definition tuning_job_names : list string :=
  keys tuning_hyperparameters ++ keys hyperparameter_ranges.

(** The hyperparameter surface, in the words of the specification
    (section 6). *)
Definition hyperparameter_surface : list string :=
  [ "batch-size"; "test-batch-size"; "epochs"; "lr"; "gamma"; "seed"; "save-model" ].

(** [metric_definitions], the same list in the estimator and in the tuner. *)
Definition metric_definitions : list (string * string) :=
  [ ("train:loss", "Train Epoch: .+Loss: (.+)");
    ("train:accuracy", "Train Epoch: .+\((.+)%\)");
    ("val:loss", "Test set: Average loss: (.+),");
    ("val:accuracy", "Test set: Average loss: (.+), Accuracy: .+ \((.+)%\)") ].

Fixpoint assoc {A} (k : string) (d : list (string * A)) : option A :=
  match d with
  | [] => None
  | (k', v) :: r => if String.eqb k' k then Some v else assoc k r
  end.

Definition metric_regex (name : string) : string :=
  match assoc name metric_definitions with Some r => r | None => "" end.

(** The sample output of the original script quoted in the notebook. *)
Definition sample_output : list string :=
  [ "Train Epoch: 1 [57600/60000 (96%)]" ++ Script.tab ++ "Loss: 0.161597";
    "Train Epoch: 1 [58240/60000 (97%)]" ++ Script.tab ++ "Loss: 0.040758";
    "Train Epoch: 1 [58880/60000 (98%)]" ++ Script.tab ++ "Loss: 0.080115";
    "Train Epoch: 1 [59520/60000 (99%)]" ++ Script.tab ++ "Loss: 0.104489";
    "";
    "Test set: Average loss: 0.0602, Accuracy: 9799/10000 (98%)" ].

(** The four progress lines by their fields: epoch, batch index and loss in
    millionths.  They come from a run with 938 batches of 64 samples. *)
Definition sample_fields : list (Z * Z * Z) :=
  [ (1, 900, 161597); (1, 910, 40758); (1, 920, 80115); (1, 930, 104489) ].

Definition render (f : Z * Z * Z) : string :=
  let '(epoch, batch_idx, millionths) := f in
  match Script.percent batch_idx 938 with
  | inr pct => Script.train_line epoch (batch_idx * 64) 60000 pct
                 (Py.quotient millionths 1000000)
  | inl _ => ""
  end.

End Notebook.

(* ===================================================================== *)
(** * The serving script and its host *)
(* ===================================================================== *)

(** Modelled from the spec: [scripts/serve_pytorch_mnist.py] and the model
    server that calls it are not in the sources.  Per section 4.2 and
    section 6 the host loads the model once at process start through the
    mandatory model-load hook, then answers each request by
    request-deserialize, predict and response-serialize, each of the three
    being the script's override or the host's default; a malformed request
    is reported for that request and the process goes on. *)
Module Serve.
Import Py.

Inductive hook : Type := ModelFn | InputFn | PredictFn | OutputFn.

Record request : Type := {
  body : list Byte.byte;
  content_type : string;
  accept : string
}.

Section Hosting.
Context {T : Torch}.
Local Open Scope script_scope.

(** The artifact is looked up where the training script wrote it. *)
Definition model_fn (model_dir : string) : M Weights :=
  let path := path_join model_dir "mnist_cnn.pt" in
  let* data := read_file path in
  match torch_load data with
  | Some w => ret w
  | None => raise (UnpicklingError path)
  end.

(** The extension surface: one mandatory hook, three optional ones. *)
Record script : Type := {
  s_model_fn : string -> M Weights;
  s_input_fn : option (list Byte.byte -> string -> result Image);
  s_predict_fn : option (Image -> Weights -> result Z);
  s_output_fn : option (Z -> string -> result (list Byte.byte))
}.

(** The defaults of the host. *)
Record defaults : Type := {
  d_input_fn : list Byte.byte -> string -> result Image;
  d_predict_fn : Image -> Weights -> result Z;
  d_output_fn : Z -> string -> result (list Byte.byte)
}.

Definition or_default {A} (o : option A) (d : A) : A :=
  match o with Some f => f | None => d end.

Definition input_fn (s : script) (d : defaults) := or_default (s_input_fn s) (d_input_fn d).
Definition predict_fn (s : script) (d : defaults) := or_default (s_predict_fn s) (d_predict_fn d).
Definition output_fn (s : script) (d : defaults) := or_default (s_output_fn s) (d_output_fn d).

(** [serve_pytorch_mnist.py] defines [model_fn] only. *)
Definition serve_pytorch_mnist : script :=
  {| s_model_fn := model_fn; s_input_fn := None; s_predict_fn := None;
     s_output_fn := None |}.

Inductive state : Type :=
| Unloaded
| Ready (w : Weights).

Definition is_ready (st : state) : bool :=
  match st with Ready _ => true | Unloaded => false end.

(** A hook call, with whether the model was loaded when it was made. *)
Definition call : Type := hook * bool.

(** The serving process: its state, the hook calls so far and the
    responses given. *)
Record server : Type := Server {
  st : state;
  calls : list call;
  responses : list (result (list Byte.byte));
  os : proc
}.

Definition start (p : proc) : server := Server Unloaded [] [] p.

(** The host is about to call hook [h]: the call is recorded with the
    state the process is in. *)
Definition calling (h : hook) (sv : server) : server :=
  Server (st sv) (calls sv ++ [(h, is_ready (st sv))]) (responses sv) (os sv).

Definition respond (r : result (list Byte.byte)) (sv : server) : server :=
  Server (st sv) (calls sv) (responses sv ++ [r]) (os sv).

(** (load): only from [Unloaded]. *)
Definition load (s : script) (model_dir : string) (sv : server) : server :=
  match st sv with
  | Unloaded =>
      let sv1 := calling ModelFn sv in
      match s_model_fn s model_dir (os sv1) with
      | (inr w, p) => Server (Ready w) (calls sv1) (responses sv1) p
      | (inl _, p) => Server Unloaded (calls sv1) (responses sv1) p
      end
  | Ready _ => sv
  end.

(** (predict): legal in [Ready] only; the state does not change.  The
    three hooks in turn, each on what the one before returned; the first
    that fails gives the response. *)
Definition predict (s : script) (d : defaults) (sv : server) (r : request) : server :=
  match st sv with
  | Ready w =>
      let sv1 := calling InputFn sv in
      match input_fn s d (body r) (content_type r) with
      | inl e => respond (inl e) sv1
      | inr x =>
          let sv2 := calling PredictFn sv1 in
          match predict_fn s d x w with
          | inl e => respond (inl e) sv2
          | inr y => respond (output_fn s d y (accept r)) (calling OutputFn sv2)
          end
      end
  | Unloaded => sv
  end.

(** A process lifetime: load at start, then the requests in turn.  A
    process whose load failed serves nothing. *)
Definition lifetime (s : script) (d : defaults) (model_dir : string)
    (reqs : list request) (p : proc) : server :=
  let sv := load s model_dir (start p) in
  match st sv with
  | Ready _ => fold_left (predict s d) reqs sv
  | Unloaded => sv
  end.

End Hosting.

End Serve.

(* ===================================================================== *)
(** * A small instance of the numeric library, to run the scripts on *)
(* ===================================================================== *)

Module Toy.

(** One byte of weight, images are integers, the predicted class is
    [(image + weight) mod 10]; a batch step counts its mistakes. *)
Definition predict_class (w : Byte.byte) (x : Z) : Z :=
  (x + Z.of_N (Byte.to_N w)) mod 10.

Definition mistakes (w : Byte.byte) (data : list (Z * Z)) : Z :=
  Z.of_nat (length (List.filter (fun s : Z * Z => negb (predict_class w (fst s) =? snd s)) data)).

Definition next (g : Z) : Z := (1103515245 * g + 12345) mod 2147483648.

Definition byte_of (n : Z) : Byte.byte :=
  match Byte.of_N (Z.to_N (n mod 256)) with Some b => b | None => Byte.x00 end.

Definition step (w : Byte.byte) (data : list (Z * Z)) (g : Z) : Byte.byte :=
  byte_of (Z.of_N (Byte.to_N w) + mistakes w data + g mod 2).

#[export] Instance torch : Torch := {|
  Image := Z;
  Weights := Byte.byte;
  Optim := Py.float;
  Gen := Z;
  manual_seed := fun s => s mod 2147483648;
  net_init := fun g => (byte_of g, next g);
  shuffle := fun g l => (if Z.even g then rev l else l, next g);
  adadelta := fun _ lr => lr;
  step_lr := fun gamma o => Py.fmul gamma o;
  train_batch := fun _ w o data g =>
    (step w data g, o, Py.quotient (mistakes w data) (Z.of_nat (length data)), next g);
  nll_loss_sum := fun _ w data => Py.float_of_int (mistakes w data);
  argmax_forward := fun _ w x => predict_class w x;
  torch_save := fun w => [w];
  torch_load := fun data => match data with [w] => Some w | _ => None end;
  mnist_fetch := fun root =>
    if String.eqb root "/tmp/offline" then
      ([ (root ++ "/MNIST/raw/train-images-idx3-ubyte.gz", [Byte.x1f]) ],
       [ "Downloading train-images-idx3-ubyte.gz" ], None)
    else
      ([ (root ++ "/MNIST/processed/training.pt", [Byte.x01]);
         (root ++ "/MNIST/processed/test.pt", [Byte.x02]) ],
       [ "Downloading train-images-idx3-ubyte.gz"; "Processing..."; "Done!" ],
       Some ([ (0, 0); (1, 1); (2, 2); (3, 4) ], [ (5, 5); (6, 7) ]))
|}.

End Toy.

(* ===================================================================== *)
(** * Concrete inputs *)
(* ===================================================================== *)

Module Example.
Import Script.

(** The environment of a SageMaker training container with one GPU. *)
Definition environ : gmap string string :=
  list_to_map [ ("SM_MODEL_DIR", "/opt/ml/model");
                ("SM_CHANNEL_TRAINING", "/opt/ml/input/data/training");
                ("SM_NUM_GPUS", "1") ].

(** An environment that carries the names of the specification instead. *)
Definition stated_environ : gmap string string :=
  list_to_map [ ("MODEL_DIR", "/opt/ml/model");
                ("DATA_DIR", "/opt/ml/input/data/training");
                ("NUM_GPUS", "1") ].

(** One epoch with the values of the notebook's training job. *)
Definition hyper : hyperparameters :=
  {| batch_size := 64; test_batch_size := 1000; epochs := 1;
     lr := Py.float_of_int 1; gamma := Py.quotient 7 10; seed := 1;
     log_interval := 10; save_model := true |}.

Definition no_save : hyperparameters :=
  {| batch_size := 64; test_batch_size := 1000; epochs := 1;
     lr := Py.float_of_int 1; gamma := Py.quotient 7 10; seed := 1;
     log_interval := 10; save_model := false |}.

(** 60000 training samples and 10000 test samples. *)
Definition mnist : list (@sample Toy.torch) * list (@sample Toy.torch) :=
  (repeat (3, 3) (N.to_nat 60000) : list (Z * Z), repeat (4, 1) (N.to_nat 10000) : list (Z * Z)).

Definition disk : gmap string (list (@sample Toy.torch) * list (@sample Toy.torch)) :=
  {[ "/opt/ml/input/data/training" := mnist ]}.

(** A small data set, for runs that are evaluated. *)
Definition small : list (@sample Toy.torch) * list (@sample Toy.torch) :=
  ([ (0, 0); (1, 1); (2, 5); (3, 3); (4, 0); (5, 5) ] : list (Z * Z),
   [ (6, 6); (7, 1) ] : list (Z * Z)).

Definition small_disk : gmap string (list (@sample Toy.torch) * list (@sample Toy.torch)) :=
  {[ "/opt/ml/input/data/training" := small ]}.

Definition small_hyper : hyperparameters :=
  {| batch_size := 2; test_batch_size := 2; epochs := 2;
     lr := Py.float_of_int 1; gamma := Py.quotient 7 10; seed := 1;
     log_interval := 1; save_model := true |}.

(** A process about to start, with an old artifact in place. *)
Definition boot (g : Z) : proc (T := Toy.torch) :=
  @Proc Toy.torch {[ "/opt/ml/model/mnist_cnn.pt" := [Byte.x00; Byte.x01] ]} [] g [].

(** What [parse_args] returns for [environ], [hyper] and no override. *)
Definition host_args : namespace :=
  {| hp := hyper; model_dir := "/opt/ml/model";
     data_dir := "/opt/ml/input/data/training"; num_gpus := 1 |}.

(** What [parse_args] returns for [environ], [small_hyper] and no override. *)
Definition small_args : namespace :=
  {| hp := small_hyper; model_dir := "/opt/ml/model";
     data_dir := "/opt/ml/input/data/training"; num_gpus := 1 |}.

(** The small run, from start to end. *)
Definition small_run : Py.result unit * proc (T := Toy.torch) :=
  main (T := Toy.torch) environ [] small_hyper small_disk (boot 7).

(** The same run where no data set is in place: the data is fetched. *)
Definition fetching_run : Py.result unit * proc (T := Toy.torch) :=
  main (T := Toy.torch) environ [] small_hyper ∅ (boot 7).

(** Host defaults for the toy library: one byte in, one byte out. *)
Definition decode (body : list Byte.byte) (content_type : string) : Py.result Z :=
  match body with
  | [b] => inr (Z.of_N (Byte.to_N b))
  | _ => inl (Py.ValueError "payload")
  end.

Definition classify (x : Z) (w : Byte.byte) : Py.result Z := inr (Toy.predict_class w x).

Definition encode (y : Z) (accept : string) : Py.result (list Byte.byte) :=
  inr [Toy.byte_of y].

Definition host_defaults : Serve.defaults (T := Toy.torch) :=
  @Serve.Build_defaults Toy.torch decode classify encode.

(** A serving process about to start, the artifact in place. *)
Definition serving : proc (T := Toy.torch) :=
  @Proc Toy.torch {[ "/opt/ml/model/mnist_cnn.pt" := [Byte.x2a] ]} [] 0 [].

(** Three requests, the second one malformed. *)
Definition requests : list Serve.request :=
  [ {| Serve.body := [Byte.x03]; Serve.content_type := "application/x-npy";
       Serve.accept := "application/x-npy" |};
    {| Serve.body := []; Serve.content_type := "application/x-npy";
       Serve.accept := "application/x-npy" |};
    {| Serve.body := [Byte.x07]; Serve.content_type := "application/x-npy";
       Serve.accept := "application/x-npy" |} ].

End Example.

(* ===================================================================== *)
(** * Predicates of the statements *)
(* ===================================================================== *)

Section Frames.
Context {T : Torch}.

(** [m] relates by [R] the state it starts in and the state it leaves,
    whether it ends with a value or with an exception. *)
Definition keeps (R : proc -> proc -> Prop) {A} (m : M A) : Prop :=
  forall p, R p (snd (m p)).

(** No file is created, changed or removed. *)
Definition same_files (p p' : proc) : Prop := fs p' = fs p.

(** Standard output only grows, by lines that satisfy [P]. *)
Definition emits (P : string -> Prop) (p p' : proc) : Prop :=
  exists new, stdout p' = (stdout p ++ new)%list /\ Forall P new.

(** Two runs of [m], started in [p] and in [q], end alike: same value or
    exception, same generator state, same lines printed. *)
Definition agree {A} (m : M A) (p q : proc) : Prop :=
  fst (m p) = fst (m q)
  /\ gen (snd (m p)) = gen (snd (m q))
  /\ exists new, stdout (snd (m p)) = (stdout p ++ new)%list
                 /\ stdout (snd (m q)) = (stdout q ++ new)%list.

(** [m] depends on the process it starts in through the generator only. *)
Definition generator_only {A} (m : M A) : Prop :=
  forall p q, gen p = gen q -> agree m p q.

(** [m] does not depend on the process it starts in. *)
Definition reproducible {A} (m : M A) : Prop :=
  forall p q, agree m p q.


(** The files in place once the data set is loaded from [root]: those of
    the process, with those of the download when the root held no data. *)
Definition after_load (disk : gmap string (list Script.sample * list Script.sample))
    (root : string) (files : gmap string (list Byte.byte))
    : gmap string (list Byte.byte) :=
  match disk !! root with
  | Some _ => files
  | None => fold_left (fun m f => <[fst f := snd f]> m) (fst (fst (mnist_fetch root))) files
  end.

(** The lines the download prints on the way. *)
Definition fetch_lines (disk : gmap string (list Script.sample * list Script.sample))
    (root : string) : list string :=
  match disk !! root with
  | Some _ => []
  | None => snd (fst (mnist_fetch root))
  end.

End Frames.

(** The two contractual formats in the words of section 4.1:
    [Train Epoch: {epoch} [{done}/{total} ({pct}%)]\tLoss: {loss:.6f}], the
    percentage without decimals, and
    [Test set: Average loss: {avg_loss:.4f}, Accuracy: {correct}/{total} ({pct:.0f}%)]. *)
Definition horizontal_tab : string := String "009"%char "".

Definition train_format (l : string) : Prop :=
  exists (epoch done total : Z) (pct loss : Py.float),
    l = "Train Epoch: " ++ Py.str epoch ++ " [" ++ Py.str done ++ "/" ++ Py.str total
          ++ " (" ++ Py.format_f 0 pct ++ "%)]" ++ horizontal_tab
          ++ "Loss: " ++ Py.format_f 6 loss.

Definition test_format (l : string) : Prop :=
  exists (avg : Py.float) (correct total : Z) (pct : Py.float),
    l = "Test set: Average loss: " ++ Py.format_f 4 avg ++ ", Accuracy: "
          ++ Py.str correct ++ "/" ++ Py.str total ++ " (" ++ Py.format_f 0 pct ++ "%)".

(** A line in one of the two formats, or blank. *)
Definition log_format (l : string) : Prop :=
  l = "" \/ train_format l \/ test_format l.

(** A value that argparse reads as an argument wherever it stands: it does
    not start with a dash. *)
Definition plain (v : string) : bool :=
  match v with
  | String c _ => negb (Ascii.eqb c "-")
  | "" => true
  end.

(** An override as section 6 has it: one of the three options by name,
    then its value; the count is the decimal text of a non-negative
    integer. *)
Definition well_formed (ov : string * string) : Prop :=
  In (fst ov) [ "--model-dir"; "--data-dir"; "--num-gpus" ]
  /\ plain (snd ov) = true
  /\ (fst ov = "--num-gpus" -> exists k, 0 <= k /\ snd ov = Py.str k).

Section Reading.
Import Py Argparse Script.

(** The action behind each of the three names. *)
Definition named (o : string) : action :=
  match assoc o option_strings with Some a => a | None => Help end.

(** What a list of overrides leaves in the parser's record. *)
Definition overridden (ovs : list (string * string)) (s : seen) : seen :=
  Seen (match override "--model-dir" ovs with
        | Some v => Some (Value v)
        | None => seen_model_dir s
        end)
       (match override "--data-dir" ovs with
        | Some v => Some (Value v)
        | None => seen_data_dir s
        end)
       (match override "--num-gpus" ovs with
        | Some v => Value <$> int v
        | None => seen_num_gpus s
        end)
       (extras s).

Definition text_stored (v : string) : stored string :=
  if String.eqb v "--" then EmptyList else Value v.

(** [s'] holds, for each option, the last argument given for it in [ms],
    converted, and what [s] held where none is given. *)
Definition reads (ms : list (string * mark)) (s s' : seen) : Prop :=
  seen_model_dir s' = match last_given ModelDir (given ms) with
                      | Some v => Some (text_stored v)
                      | None => seen_model_dir s
                      end
  /\ seen_data_dir s' = match last_given DataDir (given ms) with
                        | Some v => Some (text_stored v)
                        | None => seen_data_dir s
                        end
  /\ match last_given NumGpus (given ms) with
     | Some v => if String.eqb v "--" then seen_num_gpus s' = Some EmptyList
                 else exists n, int v = Some n /\ seen_num_gpus s' = Some (Value n)
     | None => seen_num_gpus s' = seen_num_gpus s
     end.

End Reading.

(** The characters that [str] of an [int] and [{:.Nf}] of a [float] can
    produce. *)
Definition numeric_char (c : ascii) : bool :=
  Py.is_digit c || existsb (Ascii.eqb c) (Py.chars "-.naif").

(** The text captured so far, after the characters [u] have gone by. *)
Definition pushes (u : list ascii) (cur : option (list ascii)) : option (list ascii) :=
  fold_left (fun acc c => Re.push c acc) u cur.

(** The value of the digits of [d], most significant first, after [acc]. *)
Fixpoint value_after (acc : Z) (d : Decimal.uint) : Z :=
  match d with
  | Decimal.Nil => acc
  | Decimal.D0 d => value_after (10 * acc + 0) d
  | Decimal.D1 d => value_after (10 * acc + 1) d
  | Decimal.D2 d => value_after (10 * acc + 2) d
  | Decimal.D3 d => value_after (10 * acc + 3) d
  | Decimal.D4 d => value_after (10 * acc + 4) d
  | Decimal.D5 d => value_after (10 * acc + 5) d
  | Decimal.D6 d => value_after (10 * acc + 6) d
  | Decimal.D7 d => value_after (10 * acc + 7) d
  | Decimal.D8 d => value_after (10 * acc + 8) d
  | Decimal.D9 d => value_after (10 * acc + 9) d
  end.

(* ===================================================================== *)
(** * Properties of the monad *)
(* ===================================================================== *)

Section FrameLemmas.
Context {T : Torch}.
Variable R : proc -> proc -> Prop.
Hypothesis R_refl : forall p, R p p.
Hypothesis R_trans : forall p q r, R p q -> R q r -> R p r.

Lemma keeps_ret {A} (a : A) : keeps R (ret a).
Proof. intros p. apply R_refl. Qed.

Lemma keeps_raise {A} (e : Py.exn) : keeps R (raise (A := A) e).
Proof. intros p. apply R_refl. Qed.

Lemma keeps_lift {A} (r : Py.result A) : keeps R (lift r).
Proof. destruct r; [apply keeps_raise | apply keeps_ret]. Qed.

Lemma keeps_bind {A B} (m : M A) (k : A -> M B) :
  keeps R m -> (forall a, keeps R (k a)) -> keeps R (bind m k).
Proof.
  intros Hm Hk p. unfold bind. specialize (Hm p).
  destruct (m p) as [[e | a] p']; simpl in *; [assumption |].
  eapply R_trans; [exact Hm | apply Hk].
Qed.

End FrameLemmas.

(* ===================================================================== *)
(** * The characters of printed numbers *)
(* ===================================================================== *)

Section PrintedNumbers.
Import Py.

Lemma chars_app a b : chars (a ++ b) = (chars a ++ chars b)%list.
Proof. induction a as [ | c a IH]; simpl; [reflexivity | f_equal; exact IH]. Qed.

Lemma uint_numeric d :
  Forall (fun c => numeric_char c = true) (chars (NilEmpty.string_of_uint d)).
Proof. induction d; simpl; constructor; auto. Qed.

Lemma str_numeric n : Forall (fun c => numeric_char c = true) (chars (str n)).
Proof.
  unfold str, NilZero.string_of_int, NilZero.string_of_uint.
  destruct (Z.to_int n) as [d | d]; destruct d; simpl;
    repeat constructor; apply uint_numeric.
Qed.

Lemma str_nonempty n : chars (str n) <> [].
Proof.
  unfold str, NilZero.string_of_int, NilZero.string_of_uint.
  destruct (Z.to_int n) as [d | d]; destruct d; simpl; discriminate.
Qed.

Lemma zeros_numeric k : Forall (fun c => numeric_char c = true) (chars (zeros k)).
Proof. induction k; simpl; constructor; auto. Qed.

Lemma fixed_numeric digits r :
  Forall (fun c => numeric_char c = true) (chars (fixed digits r)).
Proof.
  unfold fixed. destruct digits; [apply str_numeric | ].
  rewrite !chars_app. repeat (apply Forall_app; split);
    auto using str_numeric, zeros_numeric. repeat constructor.
Qed.

Lemma fixed_nonempty digits r : chars (fixed digits r) <> [].
Proof.
  unfold fixed. destruct digits; [apply str_nonempty | ].
  rewrite chars_app. intros H. apply app_eq_nil in H as [H _].
  revert H. apply str_nonempty.
Qed.

Lemma sign_numeric s : Forall (fun c => numeric_char c = true) (chars (sign_text s)).
Proof. destruct s; simpl; repeat constructor. Qed.

Lemma format_f_numeric digits x :
  Forall (fun c => numeric_char c = true) (chars (format_f digits x)).
Proof.
  destruct x; simpl; rewrite ?chars_app;
    repeat (apply Forall_app; split);
    auto using sign_numeric, fixed_numeric; repeat constructor.
Qed.

Lemma format_f_nonempty digits x : chars (format_f digits x) <> [].
Proof.
  destruct x as [s | s | | s m e]; simpl; rewrite ?chars_app.
  - intros H. apply app_eq_nil in H as [_ H]. revert H. apply fixed_nonempty.
  - destruct s; discriminate.
  - discriminate.
  - intros H. apply app_eq_nil in H as [_ H]. revert H. apply fixed_nonempty.
Qed.

Lemma numeric_not (a : ascii) :
  numeric_char a = false ->
  forall l, Forall (fun c => numeric_char c = true) l -> Forall (fun c => c <> a) l.
Proof.
  intros Ha l Hl. eapply Forall_impl; [exact Hl | ].
  intros c Hc ->. congruence.
Qed.

End PrintedNumbers.

Section Decimal.
Import Py.

Lemma digits_val_uint d :
  forall acc b, (d <> Decimal.Nil \/ b = true) ->
    digits_val acc b (chars (NilEmpty.string_of_uint d)) = Some (value_after acc d).
Proof.
  induction d; intros acc b H;
    try (cbn [NilEmpty.string_of_uint chars list_ascii_of_string digits_val value_after];
         change (chars ?s) with (list_ascii_of_string s) in IHd;
         cbn; apply IHd; right; reflexivity).
  destruct H as [H | ->]; [congruence | reflexivity].
Qed.

Lemma value_after_spec d :
  forall acc, value_after acc d
              = acc * 10 ^ Z.of_N (Unsigned.usize d) + Z.of_N (Unsigned.of_lu (Decimal.rev d)).
Proof.
  induction d; intros acc; cbn [value_after Unsigned.usize];
    [cbn; lia | ..];
    unfold Decimal.rev; cbn [Decimal.revapp];
    match goal with
    | |- context [Decimal.revapp d (?c Decimal.Nil)] =>
        rewrite (Unsigned.of_lu_revapp d (c Decimal.Nil))
    end;
    rewrite IHd; cbn [Unsigned.of_lu];
    rewrite N2Z.inj_succ, Z.pow_succ_r by lia;
    rewrite ?N2Z.inj_add, ?N2Z.inj_mul, ?N2Z.inj_pow; cbn [Z.of_N]; lia.
Qed.

Lemma value_of_uint d : value_after 0 d = Z.of_uint d.
Proof.
  rewrite value_after_spec. unfold Z.of_uint. rewrite Unsigned.of_uint_alt. lia.
Qed.

End Decimal.

Section IntOfStr.
Import Py.

Lemma lstrip_head c l : is_space c = false -> lstrip (c :: l) = c :: l.
Proof. intros H. cbn. rewrite H. reflexivity. Qed.

Lemma lstrip_no_space l : Forall (fun c => is_space c = false) l -> lstrip l = l.
Proof. destruct 1 as [ | c l Hc _]; [reflexivity | apply lstrip_head; exact Hc]. Qed.

Lemma strip_no_space l : Forall (fun c => is_space c = false) l -> strip l = l.
Proof.
  intros H. unfold strip. rewrite (lstrip_no_space l H).
  rewrite lstrip_no_space; [apply rev_involutive | ].
  apply Forall_rev. exact H.
Qed.

Lemma lstrip_spaces l : Forall (fun c => is_space c = true) l -> lstrip l = [].
Proof. induction 1 as [ | c l Hc _ IH]; [reflexivity | cbn; rewrite Hc; exact IH]. Qed.

Lemma numeric_no_space l :
  Forall (fun c => numeric_char c = true) l -> Forall (fun c => is_space c = false) l.
Proof.
  intros H. eapply Forall_impl; [exact H | ]. intros c Hc.
  destruct (is_space c) eqn:E; [ | reflexivity]. exfalso. revert Hc E.
  destruct c as [[ | ] [ | ] [ | ] [ | ] [ | ] [ | ] [ | ] [ | ]]; vm_compute;
    intros; congruence.
Qed.

Lemma uint_head_digit d :
  d <> Decimal.Nil ->
  exists c r, chars (NilEmpty.string_of_uint d) = c :: r /\ is_digit c = true.
Proof. destruct d; [congruence | ..]; intros _; cbn; eauto. Qed.

(** Reading back the decimal text of an integer gives the integer. *)
Lemma int_of_str n : int (str n) = Some n.
Proof.
  unfold int. rewrite strip_no_space by (apply numeric_no_space, str_numeric).
  rewrite <- (DecimalZ.of_to n) at 2.
  unfold str, NilZero.string_of_int, NilZero.string_of_uint, Z.of_int.
  assert (Hnil : forall d, Z.to_int n = Decimal.Pos d \/ Z.to_int n = Decimal.Neg d ->
                           d <> Decimal.Nil).
  { intros d H. destruct n; cbn in H; destruct H as [[= <-] | [= <-]];
      try discriminate; apply Unsigned.to_uint_nonnil. }
  destruct (Z.to_int n) as [d | d] eqn:E.
  - specialize (Hnil d (or_introl eq_refl)).
    destruct (uint_head_digit d Hnil) as (c & r & Hc & Hd).
    replace (match d with Decimal.Nil => "0" | _ => NilEmpty.string_of_uint d end)
      with (NilEmpty.string_of_uint d) by (destruct d; congruence).
    rewrite Hc.
    assert (Ascii.eqb c "-" = false /\ Ascii.eqb c "+" = false) as [-> ->].
    { revert Hd. destruct c as [[ | ] [ | ] [ | ] [ | ] [ | ] [ | ] [ | ] [ | ]];
        vm_compute; intros; try discriminate; auto. }
    rewrite <- Hc, digits_val_uint by (left; exact Hnil).
    rewrite value_of_uint. reflexivity.
  - specialize (Hnil d (or_intror eq_refl)).
    replace (match d with Decimal.Nil => "0" | _ => NilEmpty.string_of_uint d end)
      with (NilEmpty.string_of_uint d) by (destruct d; congruence).
    cbn [chars list_ascii_of_string]. rewrite Ascii.eqb_refl.
    change (list_ascii_of_string ?s) with (chars s).
    rewrite digits_val_uint by (left; exact Hnil).
    rewrite value_of_uint. reflexivity.
Qed.

(** A text made of white space only is no integer. *)
Lemma int_blank s : Forall (fun c => is_space c = true) (chars s) -> int s = None.
Proof.
  intros H. unfold int, strip. rewrite (lstrip_spaces _ H). reflexivity.
Qed.

End IntOfStr.

(* ===================================================================== *)
(** * The command line *)
(* ===================================================================== *)

Section CommandLine.
Import Py Argparse Script.

Lemma parse_optional_plain v : plain v = true -> parse_optional v = Arg.
Proof.
  destruct v as [ | c r]; [reflexivity | ]. cbn [plain parse_optional].
  intros ->. reflexivity.
Qed.

Lemma plain_not_dashes v : plain v = true -> String.eqb v "--" = false.
Proof.
  destruct v as [ | c r]; [reflexivity | ]. cbn [plain]. intros H.
  apply String.eqb_neq. intros [= -> _]. discriminate.
Qed.

Lemma parse_optional_name o :
  In o [ "--model-dir"; "--data-dir"; "--num-gpus" ] ->
  parse_optional o = Opt o (named o) None /\ String.eqb o "--" = false
  /\ named o <> Help.
Proof.
  intros [<- | [<- | [<- | []]]]; repeat split; discriminate.
Qed.

Lemma pattern_override o v rest :
  well_formed (o, v) ->
  pattern (o :: v :: rest)
  = (o, W (Opt o (named o) None)) :: (v, W Arg) :: pattern rest.
Proof.
  intros (Ho & Hv & _). cbn [fst snd] in *.
  destruct (parse_optional_name o Ho) as (Hp & Hd & _).
  cbn [pattern]. rewrite Hd, Hp, (plain_not_dashes v Hv), (parse_optional_plain v Hv).
  reflexivity.
Qed.

Lemma consume_pair o a v r s :
  a <> Help ->
  consume ((o, W (Opt o a None)) :: (v, W Arg) :: r) s
  = match store a v s with
    | Some s' => consume r s'
    | None => inl 2
    end.
Proof. destruct a; [congruence | reflexivity..]. Qed.

Lemma consume_overrides ovs :
  Forall well_formed ovs ->
  forall s, consume (pattern (overrides ovs)) s = inr (overridden ovs s).
Proof.
  induction 1 as [ | [o v] ovs Hov Hall IH]; intros s.
  - destruct s; reflexivity.
  - cbn [overrides flat_map fst snd app]. fold (overrides ovs).
    rewrite (pattern_override o v _ Hov).
    destruct Hov as (Ho & Hv & Hk). cbn [fst snd] in *.
    pose proof (plain_not_dashes v Hv) as Hd.
    rewrite consume_pair by (apply parse_optional_name; exact Ho).
    unfold store. rewrite Hd.
    destruct Ho as [<- | [<- | [<- | []]]].
    + change (named "--model-dir") with ModelDir. cbn [convert].
      rewrite IH. unfold overridden.
      cbn [override seen_model_dir seen_data_dir seen_num_gpus extras String.eqb Ascii.eqb Bool.eqb].
      destruct (override "--model-dir" ovs), (override "--data-dir" ovs),
        (override "--num-gpus" ovs); reflexivity.
    + change (named "--data-dir") with DataDir. cbn [convert].
      rewrite IH. unfold overridden.
      cbn [override seen_model_dir seen_data_dir seen_num_gpus extras String.eqb Ascii.eqb Bool.eqb].
      destruct (override "--model-dir" ovs), (override "--data-dir" ovs),
        (override "--num-gpus" ovs); reflexivity.
    + change (named "--num-gpus") with NumGpus. cbn [convert].
      destruct (Hk eq_refl) as (k & _ & ->). rewrite int_of_str.
      rewrite IH. unfold overridden.
      cbn [override seen_model_dir seen_data_dir seen_num_gpus extras String.eqb Ascii.eqb Bool.eqb].
      destruct (override "--model-dir" ovs), (override "--data-dir" ovs),
        (override "--num-gpus" ovs); rewrite ?int_of_str; reflexivity.
Qed.

Lemma pattern_overrides_clear ovs :
  Forall well_formed ovs -> existsb is_ambiguous (pattern (overrides ovs)) = false.
Proof.
  induction 1 as [ | [o v] ovs Hov Hall IH]; [reflexivity | ].
  cbn [overrides flat_map fst snd app]. fold (overrides ovs).
  rewrite (pattern_override o v _ Hov). cbn [existsb is_ambiguous snd]. exact IH.
Qed.

(** The count in force among well-formed overrides is the text of a
    non-negative integer. *)
Lemma override_count ovs v :
  Forall well_formed ovs -> override "--num-gpus" ovs = Some v ->
  exists k, 0 <= k /\ v = str k.
Proof.
  induction 1 as [ | [o w] ovs Hov Hall IH]; [discriminate | ].
  cbn [override]. destruct (override "--num-gpus" ovs) as [x | ].
  - intros [= ->]. apply IH. reflexivity.
  - destruct (String.eqb_spec o "--num-gpus") as [-> | ]; [ | discriminate].
    intros [= ->]. destruct Hov as (_ & _ & Hk). apply Hk. reflexivity.
Qed.

Lemma scan_overrides ovs :
  Forall well_formed ovs -> scan (overrides ovs) = inr (overridden ovs nothing).
Proof.
  intros H. unfold scan. rewrite (pattern_overrides_clear ovs H), (consume_overrides ovs H).
  reflexivity.
Qed.

(** ** What a completed scan has read *)

Lemma reads_nil s : reads [] s s.
Proof. repeat split. Qed.

(** One more argument in front. *)
Lemma reads_cons a v l s1 s s' :
  store a v s = Some s1 ->
  (seen_model_dir s' = match last_given ModelDir l with
                      | Some v => Some (text_stored v)
                      | None => seen_model_dir s1
                      end
  /\ seen_data_dir s' = match last_given DataDir l with
                        | Some v => Some (text_stored v)
                        | None => seen_data_dir s1
                        end
  /\ match last_given NumGpus l with
     | Some v => if String.eqb v "--" then seen_num_gpus s' = Some EmptyList
                 else exists n, int v = Some n /\ seen_num_gpus s' = Some (Value n)
     | None => seen_num_gpus s' = seen_num_gpus s1
     end) ->
  seen_model_dir s' = match last_given ModelDir ((a, v) :: l) with
                      | Some v => Some (text_stored v)
                      | None => seen_model_dir s
                      end
  /\ seen_data_dir s' = match last_given DataDir ((a, v) :: l) with
                        | Some v => Some (text_stored v)
                        | None => seen_data_dir s
                        end
  /\ match last_given NumGpus ((a, v) :: l) with
     | Some v => if String.eqb v "--" then seen_num_gpus s' = Some EmptyList
                 else exists n, int v = Some n /\ seen_num_gpus s' = Some (Value n)
     | None => seen_num_gpus s' = seen_num_gpus s
     end.
Proof.
  intros Hst (Hm & Hd & Hn). cbn [last_given].
  unfold store, text_stored in *.
  destruct (last_given ModelDir l), (last_given DataDir l), (last_given NumGpus l);
    destruct a; cbn [same_action];
    destruct (String.eqb v "--") eqn:E; cbn [store_empty convert] in Hst;
    try (destruct (int v) as [n | ] eqn:Hi; [ | discriminate]);
    injection Hst as <-; cbn [seen_model_dir seen_data_dir seen_num_gpus] in *;
    rewrite ?E; repeat split; try assumption; eauto.
Qed.

Lemma consume_reads n :
  forall ms s s', (length ms <= n)%nat -> consume ms s = inr s' -> reads ms s s'.
Proof.
  induction n as [ | n IH]; intros ms s s' Hlen.
  - destruct ms; [ | cbn in Hlen; lia]. intros [= <-]. apply reads_nil.
  - destruct ms as [ | [t [w | ]] r]; [intros [= <-]; apply reads_nil | | ].
    2: { cbn [consume given]. intros H. apply (IH r) in H; [exact H | cbn in Hlen; lia]. }
    destruct w as [ | o a e | | ].
    + cbn [consume given]. intros H. apply (IH r) in H; [exact H | cbn in Hlen; lia].
    + destruct e as [e | ].
      * destruct a; cbn [consume given];
          try (destruct (single_dash o && only_h e); discriminate);
          (destruct (store _ e s) as [s1 | ] eqn:Hst; [ | discriminate]);
          intros H; apply (IH r) in H; [ | cbn in Hlen; lia | | cbn in Hlen; lia
                                         | | cbn in Hlen; lia];
          unfold reads; eapply reads_cons; eauto.
      * destruct a; cbn [consume given]; [discriminate | | | ];
          (destruct r as [ | [v [[ | | | ] | ]] r']; try discriminate;
           (destruct (store _ v s) as [s1 | ] eqn:Hst; [ | discriminate]);
           intros H; apply (IH r') in H; [ | cbn in Hlen; lia];
           unfold reads; eapply reads_cons; eauto).
    + cbn [consume given]. intros H. apply (IH r) in H; [exact H | cbn in Hlen; lia].
    + cbn [consume given]. intros H. apply (IH r) in H; [exact H | cbn in Hlen; lia].
Qed.

Lemma scan_reads av s :
  scan av = inr s -> reads (pattern av) nothing s /\ extras s = false.
Proof.
  unfold scan. destruct (existsb is_ambiguous (pattern av)); [discriminate | ].
  destruct (consume (pattern av) nothing) as [st | s1] eqn:Hc; [discriminate | ].
  destruct (extras s1) eqn:He; [discriminate | ]. intros [= <-].
  split; [ | exact He]. eapply consume_reads; [reflexivity | exact Hc].
Qed.

End CommandLine.

(* ===================================================================== *)
(** * The configuration surface *)
(* ===================================================================== *)

Section Configuration.
Import Py Argparse Script.

Lemma parse_args_missing env av h :
  (exists v, In v sm_variables /\ env !! v = None) ->
  exists k, In k sm_variables /\ env !! k = None
            /\ parse_args env av h = inl (KeyError k).
Proof.
  intros [v [Hin Hv]]. unfold parse_args, environ_get.
  destruct (env !! "SM_MODEL_DIR") as [m | ] eqn:Hm.
  2: { exists "SM_MODEL_DIR". simpl. auto. }
  destruct (env !! "SM_CHANNEL_TRAINING") as [d | ] eqn:Hd.
  2: { exists "SM_CHANNEL_TRAINING". simpl. auto. }
  destruct (env !! "SM_NUM_GPUS") as [n | ] eqn:Hn.
  2: { exists "SM_NUM_GPUS". simpl. auto 6. }
  simpl in Hin. destruct Hin as [<- | [<- | [<- | []]]]; congruence.
Qed.

(** With the three variables set, the command line decides. *)
Lemma parse_args_present env av h m d g :
  env !! "SM_MODEL_DIR" = Some m ->
  env !! "SM_CHANNEL_TRAINING" = Some d ->
  env !! "SM_NUM_GPUS" = Some g ->
  parse_args env av h
  = match scan av with
    | inl status => inl (SystemExit status)
    | inr s =>
        rbind (or_default_int (seen_num_gpus s) g) (fun n =>
        rbind (usable "num_gpus" n) (fun n =>
        rbind (usable "data_dir" (or_default_str (seen_data_dir s) d)) (fun d =>
        rbind (usable "model_dir" (or_default_str (seen_model_dir s) m)) (fun m =>
        inr {| hp := h; model_dir := m; data_dir := d; num_gpus := n |}))))
    end.
Proof.
  intros Hm Hd Hg. unfold parse_args, environ_get. rewrite Hm, Hd, Hg. reflexivity.
Qed.

Lemma parse_args_set env av h args :
  parse_args env av h = inr args ->
  exists m d g, env !! "SM_MODEL_DIR" = Some m
                /\ env !! "SM_CHANNEL_TRAINING" = Some d
                /\ env !! "SM_NUM_GPUS" = Some g.
Proof.
  unfold parse_args, environ_get.
  destruct (env !! "SM_MODEL_DIR") as [m | ]; [ | discriminate].
  destruct (env !! "SM_CHANNEL_TRAINING") as [d | ]; [ | discriminate].
  destruct (env !! "SM_NUM_GPUS") as [g | ]; [ | discriminate]. eauto 6.
Qed.

Lemma text_stored_usable what v x :
  usable what (text_stored v) = inr x -> x = v.
Proof.
  unfold text_stored. destruct (String.eqb v "--"); [discriminate | ].
  intros [= <-]. reflexivity.
Qed.

Lemma parse_args_inr env av h args :
  parse_args env av h = inr args ->
  hp args = h
  /\ resolve env av "SM_MODEL_DIR" "--model-dir" = Some (model_dir args)
  /\ resolve env av "SM_CHANNEL_TRAINING" "--data-dir" = Some (data_dir args)
  /\ exists text, resolve env av "SM_NUM_GPUS" "--num-gpus" = Some text
                  /\ int text = Some (num_gpus args).
Proof.
  intros Hp. destruct (parse_args_set _ _ _ _ Hp) as (m & d & g & Hm & Hd & Hg).
  rewrite (parse_args_present env av h m d g Hm Hd Hg) in Hp.
  destruct (scan av) as [st | s] eqn:Hs; [discriminate | ].
  destruct (scan_reads av s Hs) as ((Rm & Rd & Rn) & _).
  unfold resolve.
  change (argv_lookup "--model-dir" av) with (last_given ModelDir (given (pattern av))).
  change (argv_lookup "--data-dir" av) with (last_given DataDir (given (pattern av))).
  change (argv_lookup "--num-gpus" av) with (last_given NumGpus (given (pattern av))).
  cbn [seen_model_dir seen_data_dir seen_num_gpus nothing] in Rm, Rd, Rn.
  rewrite Rm, Rd in Hp. rewrite Hm, Hd, Hg.
  destruct (or_default_int (seen_num_gpus s) g) as [e | sn] eqn:Hn; [discriminate | ].
  cbn [rbind] in Hp.
  destruct (usable "num_gpus" sn) as [e | n] eqn:Hun; [discriminate | ].
  cbn [rbind] in Hp.
  destruct (usable "data_dir" _) as [e | d'] eqn:Hud in Hp; [discriminate | ].
  cbn [rbind] in Hp.
  destruct (usable "model_dir" _) as [e | m'] eqn:Hum in Hp; [discriminate | ].
  cbn [rbind] in Hp. injection Hp as <-. cbn [hp model_dir data_dir num_gpus].
  split; [reflexivity | ]. split; [ | split].
  - destruct (last_given ModelDir (given (pattern av))) as [v | ]; cbn in Hum.
    + apply text_stored_usable in Hum. congruence.
    + congruence.
  - destruct (last_given DataDir (given (pattern av))) as [v | ]; cbn in Hud.
    + apply text_stored_usable in Hud. congruence.
    + congruence.
  - unfold or_default_int in Hn.
    destruct (last_given NumGpus (given (pattern av))) as [v | ].
    + exists v. split; [reflexivity | ].
      destruct (String.eqb v "--").
      * rewrite Rn in Hn. injection Hn as <-. discriminate.
      * destruct Rn as (k & Hk & Rn). rewrite Rn in Hn. injection Hn as <-.
        injection Hun as <-. exact Hk.
    + exists g. split; [reflexivity | ]. rewrite Rn in Hn.
      destruct (int g) as [k | ]; [ | discriminate]. injection Hn as <-.
      injection Hun as <-. reflexivity.
Qed.

(** Overrides by name, and the variables for what they leave out. *)
Lemma parse_args_overrides env h m d n ovs :
  env !! "SM_MODEL_DIR" = Some m ->
  env !! "SM_CHANNEL_TRAINING" = Some d ->
  env !! "SM_NUM_GPUS" = Some (str n) -> 0 <= n ->
  Forall well_formed ovs ->
  exists args,
    parse_args env (overrides ovs) h = inr args
    /\ hp args = h
    /\ model_dir args = default m (override "--model-dir" ovs)
    /\ data_dir args = default d (override "--data-dir" ovs)
    /\ str (num_gpus args) = default (str n) (override "--num-gpus" ovs)
    /\ 0 <= num_gpus args.
Proof.
  intros Hm Hd Hg Hn Hall.
  rewrite (parse_args_present env _ h m d (str n) Hm Hd Hg), (scan_overrides ovs Hall).
  unfold overridden. cbn [seen_model_dir seen_data_dir seen_num_gpus nothing].
  destruct (override "--num-gpus" ovs) as [v | ] eqn:Hv.
  - destruct (override_count ovs v Hall Hv) as (k & Hk & ->). rewrite int_of_str.
    cbn [fmap option_fmap option_map or_default_int rbind usable].
    destruct (override "--data-dir" ovs), (override "--model-dir" ovs);
      cbn [or_default_str usable rbind]; eexists; repeat split; eauto.
  - cbn [or_default_int]. rewrite int_of_str. cbn [rbind usable].
    destruct (override "--data-dir" ovs), (override "--model-dir" ovs);
      cbn [or_default_str usable rbind]; eexists; repeat split; eauto.
Qed.

(** C1, as the code has it: the configuration surface is the three
    variables [SM_MODEL_DIR], [SM_CHANNEL_TRAINING] and [SM_NUM_GPUS].  The
    run fails with a [KeyError] naming an absent one when any of them is
    absent, whatever the command line; when the parse succeeds each item is
    its command-line override if there is one and the variable's value
    otherwise; and with the three variables set, the count a non-negative
    integer in decimal text, every command line made of overrides by name
    ([--model-dir], [--data-dir], [--num-gpus], the last one given in
    force, an overriding count a non-negative integer too) parses, the
    empty one of a host-managed run included, to the overrides and, for
    what they leave out, the variables. *)
Theorem config_surface env av h :
  ((exists v, In v sm_variables /\ env !! v = None) ->
   exists k, In k sm_variables /\ env !! k = None
             /\ parse_args env av h = inl (KeyError k))
  /\ (forall args, parse_args env av h = inr args ->
      hp args = h
      /\ resolve env av "SM_MODEL_DIR" "--model-dir" = Some (model_dir args)
      /\ resolve env av "SM_CHANNEL_TRAINING" "--data-dir" = Some (data_dir args)
      /\ exists text, resolve env av "SM_NUM_GPUS" "--num-gpus" = Some text
                      /\ int text = Some (num_gpus args))
  /\ (forall m d n ovs,
        env !! "SM_MODEL_DIR" = Some m ->
        env !! "SM_CHANNEL_TRAINING" = Some d ->
        env !! "SM_NUM_GPUS" = Some (str n) -> 0 <= n ->
        Forall well_formed ovs ->
        exists args,
          parse_args env (overrides ovs) h = inr args
          /\ hp args = h
          /\ model_dir args = default m (override "--model-dir" ovs)
          /\ data_dir args = default d (override "--data-dir" ovs)
          /\ str (num_gpus args) = default (str n) (override "--num-gpus" ovs)
          /\ 0 <= num_gpus args).
Proof.
  split; [apply parse_args_missing | split].
  - apply parse_args_inr.
  - intros m d n ovs. apply parse_args_overrides.
Qed.

(** The line the notebook removes did consult the local hardware. *)
Remark use_cuda_original_probes :
  use_cuda_original false true <> use_cuda_original false false.
Proof. discriminate. Qed.

End Configuration.

(* ===================================================================== *)
(** * What a training run touches *)
(* ===================================================================== *)

Section Binds.
Context {T : Torch}.

Lemma bind_ret {A B} (a : A) (k : A -> M B) p : bind (ret a) k p = k a p.
Proof. reflexivity. Qed.

Lemma bind_lift_inr {A B} (a : A) (k : A -> M B) p : bind (lift (inr a)) k p = k a p.
Proof. reflexivity. Qed.

Lemma bind_set_gen {B} g (k : unit -> M B) p :
  bind (set_gen g) k p = k tt (Proc (fs p) (stdout p) g (used p)).
Proof. reflexivity. Qed.

Lemma bind_draw {A B} (f : Gen -> A * Gen) (k : A -> M B) p :
  bind (draw f) k p
  = k (fst (f (gen p))) (Proc (fs p) (stdout p) (snd (f (gen p))) (used p)).
Proof. unfold bind, draw. destruct (f (gen p)). reflexivity. Qed.

Lemma bind_on {A B} dev (f : device -> Gen -> A * Gen) (k : A -> M B) p :
  bind (on dev f) k p
  = k (fst (f dev (gen p)))
      (Proc (fs p) (stdout p) (snd (f dev (gen p))) (used p ++ [dev])).
Proof. unfold bind, on. destruct (f dev (gen p)). reflexivity. Qed.

Lemma bind_on_each {A B C} dev (l : list C) (f : device -> A) (k : A -> M B) p :
  bind (on_each dev l f) k p
  = k (f dev) (Proc (fs p) (stdout p) (gen p) (used p ++ repeat dev (length l))).
Proof. reflexivity. Qed.

End Binds.

(** A relation kept by printing a log line, by drawing random numbers and
    by computing on the device is kept by [learn]. *)
Section LearnKeeps.
Context {T : Torch}.
Import Py Script.
Variable R : proc -> proc -> Prop.
Variable dev : device.
Hypothesis R_refl : forall p, R p p.
Hypothesis R_trans : forall p q r, R p q -> R q r -> R p r.
Hypothesis R_print : forall line, log_format line -> keeps R (print line).
Hypothesis R_draw : forall A (f : Gen -> A * Gen), keeps R (draw f).
Hypothesis R_on : forall A (f : device -> Gen -> A * Gen), keeps R (on dev f).
Hypothesis R_on_each : forall A B (l : list B) (f : device -> A), keeps R (on_each dev l f).

Let kb {A B} := @keeps_bind T R R_trans A B.
Let kret {A} := @keeps_ret T R R_refl A.
Let klift {A} := @keeps_lift T R R_refl A.

Lemma train_line_format epoch done total pct loss :
  log_format (train_line epoch done total pct loss).
Proof. right; left. exists epoch, done, total, pct, loss. reflexivity. Qed.

Lemma test_line_format avg correct total pct :
  log_format (test_line avg correct total pct).
Proof. right; right. exists avg, correct, total, pct. reflexivity. Qed.

Lemma log_progress_keeps args epoch total n idx data loss :
  keeps R (log_progress args epoch total n idx data loss).
Proof.
  unfold log_progress. apply kb; [apply klift | intros r].
  destruct (r =? 0); [ | apply kret].
  apply kb; [apply klift | intros pct].
  apply R_print, train_line_format.
Qed.

Lemma train_loop_keeps args epoch total n todo :
  forall w o, keeps R (train_loop args dev epoch total n w o todo).
Proof.
  induction todo as [ | [idx data] rest IH]; intros w o; simpl.
  - apply kret.
  - apply kb; [apply R_on | intros [[w' o'] loss]].
    apply kb; [apply log_progress_keeps | intros _; apply IH].
Qed.

Lemma iterate_keeps ld : keeps R (iterate ld).
Proof. unfold iterate. apply kb; [apply R_draw | intros; apply kret]. Qed.

Lemma train_keeps args ld w o epoch : keeps R (train args dev ld w o epoch).
Proof.
  unfold train. apply kb; [apply iterate_keeps | intros; apply train_loop_keeps].
Qed.

Lemma test_keeps ld w : keeps R (test dev ld w).
Proof.
  unfold test. apply kb; [apply iterate_keeps | intros bs].
  apply kb; [apply R_on_each | intros [l c]].
  apply kb; [apply klift | intros avg].
  apply kb; [apply klift | intros pct].
  apply kb; [apply R_print; left; reflexivity | intros _].
  apply kb; [ | intros _; apply R_print; left; reflexivity].
  apply R_print, test_line_format.
Qed.

Lemma epoch_loop_keeps args tr te todo :
  forall w o, keeps R (epoch_loop args dev tr te w o todo).
Proof.
  induction todo as [ | e rest IH]; intros w o; simpl.
  - apply kret.
  - apply kb; [apply train_keeps | intros [w' o']].
    apply kb; [apply test_keeps | intros _; apply IH].
Qed.

Lemma learn_keeps args sets : keeps R (learn args dev sets).
Proof.
  unfold learn.
  apply kb; [apply klift | intros trl].
  apply kb; [apply klift | intros tel].
  apply kb; [apply R_on | intros w0].
  apply kb; [apply epoch_loop_keeps | intros [w o]; apply kret].
Qed.

End LearnKeeps.

Section Loading.
Context {T : Torch}.
Import Py Script.

(** The state a load of the data set leaves: the files and the lines of
    the download when there was one, nothing else. *)
Lemma load_mnist_state disk root p :
  snd (load_mnist disk root p)
  = Proc (after_load disk root (fs p)) (stdout p ++ fetch_lines disk root)
         (gen p) (used p).
Proof.
  unfold load_mnist, after_load, fetch_lines.
  destruct (disk !! root) as [d | ].
  - cbv beta iota. rewrite app_nil_r. destruct p; reflexivity.
  - destruct (mnist_fetch root) as [[files lines] [d | ]]; reflexivity.
Qed.

(** Its outcome: the data set in place, or else the one fetched. *)
Lemma load_mnist_outcome disk root p :
  fst (load_mnist disk root p)
  = match disk !! root with
    | Some d => inr d
    | None => match snd (mnist_fetch root) with
              | Some d => inr d
              | None => inl (URLError root)
              end
    end.
Proof.
  unfold load_mnist. destruct (disk !! root) as [d | ]; [reflexivity | ].
  destruct (mnist_fetch root) as [[files lines] [d | ]]; reflexivity.
Qed.

(** [training] is the seed, the load, then [learn]. *)
Lemma training_split args disk p :
  training args disk p
  = match load_mnist disk (data_dir args)
            (Proc (fs p) (stdout p) (manual_seed (seed args)) (used p)) with
    | (inr sets, p1) => learn args (device_of (use_cuda args)) sets p1
    | (inl e, p1) => (inl e, p1)
    end.
Proof. reflexivity. Qed.

(** [training] ends at the load, or goes on with [learn] from the state
    the load leaves. *)
Lemma training_cases args disk p :
  let p1 := Proc (after_load disk (data_dir args) (fs p))
                 (stdout p ++ fetch_lines disk (data_dir args))
                 (manual_seed (seed args)) (used p) in
  (exists e, training args disk p = (inl e, p1))
  \/ (exists sets, training args disk p = learn args (device_of (use_cuda args)) sets p1).
Proof.
  cbv zeta. rewrite training_split.
  pose proof (load_mnist_state disk (data_dir args)
                (Proc (fs p) (stdout p) (manual_seed (seed args)) (used p))) as Hs.
  cbn [fs stdout gen used] in Hs.
  destruct (load_mnist _ _ _) as [[e | sets] p1]; cbn [snd] in Hs; subst p1; eauto.
Qed.

End Loading.

Section Files.
Context {T : Torch}.
Import Script.

Lemma same_files_refl p : same_files p p.
Proof. reflexivity. Qed.

Lemma same_files_trans p q r : same_files p q -> same_files q r -> same_files p r.
Proof. unfold same_files. congruence. Qed.

Lemma draw_same_files {A} (f : Gen -> A * Gen) : keeps same_files (draw f).
Proof. intros p. unfold draw. destruct (f (gen p)). reflexivity. Qed.

Lemma on_same_files {A} dev (f : device -> Gen -> A * Gen) : keeps same_files (on dev f).
Proof. intros p. unfold on. destruct (f dev (gen p)). reflexivity. Qed.

(** Once the data is loaded, training prints and computes; it writes no
    file. *)
Lemma learn_same_files args dev sets : keeps same_files (learn args dev sets).
Proof.
  apply learn_keeps.
  - apply same_files_refl.
  - apply same_files_trans.
  - intros line _ p. reflexivity.
  - intros A f. apply draw_same_files.
  - intros A f. apply on_same_files.
  - intros A B l f p. reflexivity.
Qed.

(** The files a training leaves, however it ends: those it found, and
    those of the download when the data set was not in place. *)
Lemma training_files args disk p :
  fs (snd (training args disk p)) = after_load disk (data_dir args) (fs p).
Proof.
  destruct (training_cases args disk p) as [[e ->] | [sets ->]]; [reflexivity | ].
  apply learn_same_files.
Qed.

Lemma after_load_present disk root files :
  is_Some (disk !! root) -> after_load disk root files = files.
Proof. intros [d H]. unfold after_load. rewrite H. reflexivity. Qed.

End Files.

Section Output.
Context {T : Torch}.
Variable P : string -> Prop.

Lemma emits_refl p : emits P p p.
Proof. exists []. split; [symmetry; apply app_nil_r | constructor]. Qed.

Lemma emits_trans p q r : emits P p q -> emits P q r -> emits P p r.
Proof.
  intros (n1 & H1 & F1) (n2 & H2 & F2). exists (n1 ++ n2)%list. split.
  - rewrite H2, H1, app_assoc. reflexivity.
  - apply Forall_app. auto.
Qed.

Lemma print_emits line : P line -> keeps (emits P) (print line).
Proof. intros H p. exists [line]. split; [reflexivity | repeat constructor; exact H]. Qed.

Lemma silent_emits p p' : stdout p' = stdout p -> emits P p p'.
Proof. intros H. exists []. rewrite H, app_nil_r. split; [reflexivity | constructor]. Qed.

Lemma draw_emits {A} (f : Gen -> A * Gen) : keeps (emits P) (draw f).
Proof. intros p. unfold draw. destruct (f (gen p)). apply silent_emits. reflexivity. Qed.

Lemma on_emits {A} dev (f : device -> Gen -> A * Gen) : keeps (emits P) (on dev f).
Proof. intros p. unfold on. destruct (f dev (gen p)). apply silent_emits. reflexivity. Qed.

End Output.

Section LogFormat.
Context {T : Torch}.
Import Script.

Lemma learn_log_format args dev sets : keeps (emits log_format) (learn args dev sets).
Proof.
  apply learn_keeps.
  - apply emits_refl.
  - apply emits_trans.
  - intros line H. apply print_emits. exact H.
  - intros A f. apply draw_emits.
  - intros A f. apply on_emits.
  - intros A B l f p. apply silent_emits. reflexivity.
Qed.

Lemma save_step_silent args w p : stdout (snd (save_step args w p)) = stdout p.
Proof. unfold save_step. destruct (save_model args); reflexivity. Qed.

(** Whatever a training prints, and however it ends: first the lines of
    the download, when the data set was not in place, then blank lines and
    lines in the two formats. *)
Lemma training_lines args disk p :
  exists new,
    stdout (snd (training args disk p))
    = (stdout p ++ fetch_lines disk (data_dir args) ++ new)%list
    /\ Forall log_format new.
Proof.
  destruct (training_cases args disk p) as [[e ->] | [sets ->]].
  - exists []. cbn [snd stdout]. rewrite app_nil_r. split; [reflexivity | constructor].
  - destruct (learn_log_format args (device_of (use_cuda args)) sets
                (Proc (after_load disk (data_dir args) (fs p))
                      (stdout p ++ fetch_lines disk (data_dir args))
                      (manual_seed (seed args)) (used p)))
      as (new & Hnew & Hall).
    exists new. cbn [stdout] in Hnew. rewrite Hnew, app_assoc. auto.
Qed.

End LogFormat.

Section Devices.
Context {T : Torch}.
Import Script.










End Devices.

(* ===================================================================== *)
(** * Start-up failure, the device and the artifact *)
(* ===================================================================== *)

Section Artifact.
Context {T : Torch}.
Import Py Script.

Lemma main_parse_error env av h disk e p :
  parse_args env av h = inl e -> main env av h disk p = (inl e, p).
Proof. intros H. unfold main, bind, lift. rewrite H. reflexivity. Qed.

(** C5: when one of the required variables is absent the run ends at once
    with a [KeyError] that names an absent variable; the process is left as
    it was found: no file written, nothing printed, no random number
    drawn. *)
Theorem missing_variable_is_fatal env av h disk p :
  (exists v, In v sm_variables /\ env !! v = None) ->
  exists k, In k sm_variables /\ env !! k = None
            /\ main env av h disk p = (inl (KeyError k), p).
Proof.
  intros H. destruct (parse_args_missing env av h H) as (k & Hin & Hk & Hp).
  exists k. repeat split; [assumption.. | ].
  apply main_parse_error. exact Hp.
Qed.

Lemma main_parsed env av h disk args p :
  parse_args env av h = inr args ->
  main env av h disk p
  = match training args disk p with
    | (inr w, p1) => save_step args w p1
    | (inl e, p1) => (inl e, p1)
    end.
Proof. intros H. unfold main, bind, lift. rewrite H. reflexivity. Qed.

Lemma save_step_files args w p :
  save_step args w p
  = (inr tt,
     Proc (if save_model args then <[model_path args := torch_save w]> (fs p) else fs p)
          (stdout p) (gen p) (used p)).
Proof.
  unfold save_step, write_file, ret. destruct (save_model args); [reflexivity | ].
  destruct p; reflexivity.
Qed.

Lemma path_join_plain dir name :
  dir <> "" -> ends_with_slash dir = false -> starts_with_slash name = false ->
  path_join dir name = dir ++ "/" ++ name.
Proof.
  intros Hne Hend Hstart. unfold path_join. rewrite Hstart, Hend.
  destruct dir; [congruence | reflexivity].
Qed.

Lemma parse_args_hp env av h args : parse_args env av h = inr args -> hp args = h.
Proof. intros H. apply parse_args_inr in H as [H _]. exact H. Qed.

(** C4: the save step alone writes the artifact.  A run that completes
    with [save_model] set has written the weights training returned to the
    one path [os.path.join(model_dir, "mnist_cnn.pt")], replacing what was
    there, and has changed no other path; a run with [save_model] unset,
    and a run that does not complete, write no artifact, however they end.
    Apart from the save step a run leaves the files as it found them, or
    with the files of the download when the data set was not in place; a
    run that ends on a missing variable or on the parser's exit leaves
    them as it found them. *)
Theorem artifact_write env av h disk p :
  (forall k, parse_args env av h = inl (KeyError k) ->
             fs (snd (main env av h disk p)) = fs p)
  /\ (forall status, parse_args env av h = inl (SystemExit status) ->
                     fs (snd (main env av h disk p)) = fs p)
  /\ (forall args, parse_args env av h = inr args ->
      let base := after_load disk (data_dir args) (fs p) in
      (fst (main env av h disk p) = inr tt -> save_model h = true ->
       exists w, fst (training args disk p) = inr w
                 /\ fs (snd (main env av h disk p))
                    = <[model_path args := torch_save w]> base
                 /\ fs (snd (main env av h disk p)) !! model_path args
                    = Some (torch_save w)
                 /\ forall q, q <> model_path args ->
                              fs (snd (main env av h disk p)) !! q = base !! q)
      /\ (save_model h = false -> fs (snd (main env av h disk p)) = base)
      /\ (fst (main env av h disk p) <> inr tt -> fs (snd (main env av h disk p)) = base)
      /\ (is_Some (disk !! data_dir args) -> base = fs p)
      /\ (model_dir args <> "" -> ends_with_slash (model_dir args) = false ->
          model_path args = model_dir args ++ "/mnist_cnn.pt")).
Proof.
  split; [ | split].
  - intros k He. rewrite (main_parse_error _ _ _ _ _ _ He). reflexivity.
  - intros status He. rewrite (main_parse_error _ _ _ _ _ _ He). reflexivity.
  - intros args Hp. cbv zeta. rewrite (main_parsed _ _ _ _ _ _ Hp).
    pose proof (training_files args disk p) as Hfs.
    pose proof (parse_args_hp _ _ _ _ Hp) as Hh.
    destruct (training args disk p) as [[e | w] p1]; cbn [fst snd] in *.
    + split; [discriminate | ]. split; [auto | ]. split; [auto | ].
      split; [apply after_load_present | ].
      intros Hne Hend. apply path_join_plain; auto.
    + rewrite save_step_files. cbn [fst snd fs]. rewrite <- Hh, Hfs.
      split; [ | split; [ | split; [ | split]]].
      * intros _ ->. exists w. split; [reflexivity | ]. split; [reflexivity | ].
        split; [apply lookup_insert_eq | ].
        intros q Hq. apply lookup_insert_ne. congruence.
      * intros ->. reflexivity.
      * congruence.
      * apply after_load_present.
      * intros Hne Hend. apply path_join_plain; auto.
Qed.


End Artifact.

Section ConfigurationAtInputs.
Import Py Script.

(** C1 as stated does not hold of the script: in an environment that
    carries [MODEL_DIR], [DATA_DIR] and [NUM_GPUS], the configuration the
    specification describes is complete, and the script stops with
    [KeyError: 'SM_MODEL_DIR']. *)
Lemma config_surface_counterexample :
  stated_config Example.stated_environ []
    = Some ("/opt/ml/model", "/opt/ml/input/data/training", 1)
  /\ parse_args Example.stated_environ [] Example.hyper
     = inl (KeyError "SM_MODEL_DIR").
Proof. split; vm_compute; reflexivity. Qed.

Lemma config_surface_witness :
  exists args,
    parse_args Example.environ
      (overrides [ ("--num-gpus", "2"); ("--model-dir", "/tmp/model"); ("--num-gpus", "0") ])
      Example.hyper
    = inr args
    /\ hp args = Example.hyper
    /\ model_dir args = "/tmp/model"
    /\ data_dir args = "/opt/ml/input/data/training"
    /\ str (num_gpus args) = "0"
    /\ 0 <= num_gpus args.
Proof.
  apply (proj2 (proj2 (config_surface Example.environ [] Example.hyper))
           "/opt/ml/model" "/opt/ml/input/data/training" 1
           [ ("--num-gpus", "2"); ("--model-dir", "/tmp/model"); ("--num-gpus", "0") ]).
  - vm_compute; reflexivity.
  - vm_compute; reflexivity.
  - vm_compute; reflexivity.
  - lia.
  - constructor; [ | constructor; [ | constructor; [ | constructor]]].
    + split; [cbn; auto | split; [reflexivity | ]].
      intros _. exists 2. split; [lia | reflexivity].
    + split; [cbn; auto | split; [reflexivity | discriminate]].
    + split; [cbn; auto | split; [reflexivity | ]].
      intros _. exists 0. split; [lia | reflexivity].
Defined.


Lemma missing_variable_is_fatal_witness :
  exists k, In k sm_variables /\ delete "SM_CHANNEL_TRAINING" Example.environ !! k = None
            /\ main (T := Toy.torch) (delete "SM_CHANNEL_TRAINING" Example.environ) []
                    Example.small_hyper
                    Example.small_disk (Example.boot 7)
               = (inl (KeyError k), Example.boot 7).
Proof.
  apply (missing_variable_is_fatal (T := Toy.torch)).
  exists "SM_CHANNEL_TRAINING". split; [simpl; auto | vm_compute; reflexivity].
Defined.

(** With [save_model] unset the same run leaves the old artifact alone. *)
Example no_save_keeps_files :
  fs (snd (main (T := Toy.torch) Example.environ [] Example.no_save
             Example.small_disk (Example.boot 7)))
  = fs (Example.boot 7).
Proof. vm_compute. reflexivity. Qed.

Lemma artifact_write_witness :
  exists w,
    fst (training (T := Toy.torch) Example.small_args Example.small_disk
           (Example.boot 7)) = inr w
    /\ fs (snd Example.small_run)
       = <["/opt/ml/model/mnist_cnn.pt" := torch_save w]> (fs (Example.boot 7)).
Proof.
  pose proof (proj2 (proj2 (artifact_write (T := Toy.torch) Example.environ []
                              Example.small_hyper Example.small_disk (Example.boot 7)))
                Example.small_args) as H.
  cbv zeta in H.
  destruct H as (Hsave & _ & _ & Hbase & Hpath); [vm_compute; reflexivity | ].
  destruct Hsave as (w & Htr & Hfs & _); [vm_compute; reflexivity | reflexivity | ].
  exists w. split; [exact Htr | ].
  unfold Example.small_run. rewrite Hfs, Hbase, Hpath.
  - reflexivity.
  - discriminate.
  - reflexivity.
  - eexists; reflexivity.
Defined.

End ConfigurationAtInputs.

(* ===================================================================== *)
(** * Matching *)
(* ===================================================================== *)

Section Matching.
Import Re.

Lemma pushes_some u acc : pushes u (Some acc) = Some (rev u ++ acc)%list.
Proof.
  revert acc. induction u as [ | c u IH]; intros acc; simpl; [reflexivity | ].
  unfold pushes in IH. rewrite IH, <- app_assoc. reflexivity.
Qed.

Lemma pushes_none u : pushes u None = None.
Proof. induction u; simpl; auto. Qed.

Lemma run_any_plus r c s cur caps :
  run (AnyPlus :: r) (c :: s) cur caps
  = if Ascii.eqb c newline then None
    else match run (AnyPlus :: r) s (push c cur) caps with
         | Some g => Some g
         | None => run r s (push c cur) caps
         end.
Proof. reflexivity. Qed.

Lemma run_lits u r s cur caps :
  run (map Lit u ++ r) (u ++ s) cur caps = run r s (pushes u cur) caps.
Proof.
  revert cur. induction u as [ | c u IH]; intros cur; [reflexivity | ].
  cbn [map app run]. rewrite Ascii.eqb_refl. apply IH.
Qed.

(** [.+] fails when what follows it fails after every non-empty run. *)
Lemma any_plus_none r caps s :
  (forall s1 s2 cur, s = (s1 ++ s2)%list -> s1 <> [] -> run r s2 cur caps = None) ->
  forall cur, run (AnyPlus :: r) s cur caps = None.
Proof.
  induction s as [ | c s IH]; intros H cur; [reflexivity | ].
  rewrite run_any_plus. destruct (Ascii.eqb c newline); [reflexivity | ].
  rewrite IH.
  - apply (H [c] s); [reflexivity | discriminate].
  - intros s1 s2 cur' -> Hne. apply (H (c :: s1) s2); [reflexivity | discriminate].
Qed.

(** [.+] stops at the last place after which the rest of the pattern
    matches. *)
Lemma any_plus_last r caps u v g :
  u <> [] ->
  Forall (fun c => c <> newline) u ->
  (forall v1 v2 cur, v = (v1 ++ v2)%list -> v1 <> [] -> run r v2 cur caps = None) ->
  forall cur,
    run r v (pushes u cur) caps = Some g ->
    run (AnyPlus :: r) (u ++ v) cur caps = Some g.
Proof.
  intros Hne Hnl Hlater. induction u as [ | c u IH]; [congruence | ].
  intros cur Hg. inversion Hnl as [ | ? ? Hc Hu]; subst.
  cbn [app]. rewrite run_any_plus.
  destruct (Ascii.eqb_spec c newline) as [-> | _]; [congruence | ].
  destruct u as [ | c' u].
  - cbn [app]. rewrite (any_plus_none r caps v Hlater). exact Hg.
  - rewrite IH; [reflexivity | discriminate | assumption | exact Hg].
Qed.

(** A literal cannot match in a text that does not hold its character. *)
Lemma lit_absent a r caps w :
  Forall (fun c => c <> a) w ->
  forall v1 v2 cur, w = (v1 ++ v2)%list -> run (Lit a :: r) v2 cur caps = None.
Proof.
  intros Hw v1 v2 cur ->. apply Forall_app in Hw as [_ Hv2].
  destruct v2 as [ | c v2]; [reflexivity | ].
  inversion Hv2; subst. cbn [run].
  destruct (Ascii.eqb_spec a c); [congruence | reflexivity].
Qed.

Lemma search_at_head items s g :
  run items s None [] = Some g -> search_at items s = Some g.
Proof. intros H. destruct s; simpl; rewrite H; reflexivity. Qed.

End Matching.

(* ===================================================================== *)
(** * What the metric definitions capture *)
(* ===================================================================== *)

Section Metrics.
Import Py Re Script.

Lemma train_accuracy_items :
  compile false (chars (Notebook.metric_regex "train:accuracy"))
  = Some (map Lit (chars "Train Epoch: ")
            ++ [AnyPlus; Lit "("; Open; AnyPlus; Close; Lit "%"; Lit ")"])%list.
Proof. vm_compute. reflexivity. Qed.

(** A progress line, cut where the pattern will cut it. *)
Lemma train_line_chars epoch done total pct loss :
  chars (train_line epoch done total pct loss)
  = (chars "Train Epoch: "
     ++ (chars (str epoch) ++ chars " [" ++ chars (str done) ++ chars "/"
           ++ chars (str total) ++ chars " ")
     ++ "("%char :: (chars (format_f 0 pct)
                     ++ "%"%char :: ")"%char
                        :: (chars "]" ++ chars tab ++ chars "Loss: "
                              ++ chars (format_f 6 loss))))%list.
Proof.
  unfold train_line. rewrite !chars_app. simpl.
  repeat (rewrite <- app_assoc; simpl). reflexivity.
Qed.

Lemma tail_split {A} (a : A) w v1 v2 :
  a :: w = (v1 ++ v2)%list -> v1 <> [] -> exists v1', w = (v1' ++ v2)%list.
Proof.
  destruct v1 as [ | b v1]; [congruence | ]. intros [= _ ->] _. eauto.
Qed.

Lemma run_lit a r c s cur caps :
  run (Lit a :: r) (c :: s) cur caps
  = if Ascii.eqb a c then run r s (push c cur) caps else None.
Proof. reflexivity. Qed.

Lemma run_open r s cur caps : run (Open :: r) s cur caps = run r s (Some []) caps.
Proof. reflexivity. Qed.

Lemma run_close r s acc caps :
  run (Close :: r) s (Some acc) caps
  = run r s None (caps ++ [string_of_list_ascii (rev acc)]).
Proof. reflexivity. Qed.

Lemma train_accuracy_captures epoch done total pct loss :
  metric_value (Notebook.metric_regex "train:accuracy")
               (train_line epoch done total pct loss)
  = Some (format_f 0 pct).
Proof.
  unfold metric_value, search. rewrite train_accuracy_items, train_line_chars.
  set (P := chars (format_f 0 pct)).
  set (rest := (chars "]" ++ chars tab ++ chars "Loss: " ++ chars (format_f 6 loss))%list).
  set (u := (chars (str epoch) ++ chars " [" ++ chars (str done) ++ chars "/"
               ++ chars (str total) ++ chars " ")%list).
  assert (HP : Forall (fun c => numeric_char c = true) P) by apply format_f_numeric.
  assert (Hrest : forall a, numeric_char a = false ->
                            a <> "]"%char -> a <> " "%char -> a <> "L"%char ->
                            a <> "o"%char -> a <> "s"%char -> a <> ":"%char ->
                            a <> "009"%char -> Forall (fun c => c <> a) rest).
  { intros a Ha. intros. subst rest. change (chars tab) with ["009"%char].
    cbn [chars list_ascii_of_string app].
    repeat (constructor; [congruence | ]).
    apply numeric_not; [exact Ha | apply format_f_numeric]. }
  assert (Hu : Forall (fun c => c <> newline) u).
  { subst u. repeat (apply Forall_app; split);
      try (apply numeric_not; [reflexivity | apply str_numeric]);
      repeat constructor; discriminate. }
  rewrite (search_at_head _ _ [format_f 0 pct]); [reflexivity | ].
  rewrite run_lits, pushes_none.
  apply any_plus_last.
  - subst u. intros H. apply app_eq_nil in H as [H _]. revert H. apply str_nonempty.
  - exact Hu.
  - intros v1 v2 cur Hv Hne. apply tail_split in Hv as [v1' Hv]; [ | exact Hne].
    eapply lit_absent; [ | exact Hv].
    apply Forall_app; split; [apply numeric_not; [reflexivity | exact HP] | ].
    do 2 (constructor; [discriminate | ]). apply Hrest; try discriminate. reflexivity.
  - rewrite pushes_none, run_lit, Ascii.eqb_refl, run_open.
    apply any_plus_last.
    + apply format_f_nonempty.
    + apply numeric_not; [reflexivity | exact HP].
    + intros v1 v2 cur Hv Hne. apply tail_split in Hv as [v1' Hv]; [ | exact Hne].
      destruct cur as [acc | ]; [rewrite run_close | reflexivity].
      eapply lit_absent; [ | exact Hv].
      constructor; [discriminate | ]. apply Hrest; try discriminate. reflexivity.
    + rewrite pushes_some, run_close, !run_lit, !Ascii.eqb_refl. cbn [run app].
      rewrite app_nil_r, rev_involutive. subst P. unfold chars.
      rewrite string_of_list_ascii_of_string. reflexivity.
Qed.

(** C10: on a progress line the pattern of [train:accuracy] captures the
    text of the percentage field, which is the share of the batches
    already processed; on the four progress lines quoted in the notebook
    it captures 96, 97, 98 and 99, the progress of batches 900 to 930 out
    of 938. *)
Theorem train_accuracy_is_progress :
  (forall epoch done total pct loss,
      metric_value (Notebook.metric_regex "train:accuracy")
                   (train_line epoch done total pct loss)
      = Some (format_f 0 pct))
  /\ map Notebook.render Notebook.sample_fields = firstn 4 Notebook.sample_output
  /\ map (metric_value (Notebook.metric_regex "train:accuracy"))
         (firstn 4 Notebook.sample_output)
     = [Some "96"; Some "97"; Some "98"; Some "99"].
Proof.
  split; [exact train_accuracy_captures | ].
  split; vm_compute; reflexivity.
Qed.

End Metrics.

(* ===================================================================== *)
(** * Hyperparameter names *)
(* ===================================================================== *)

Section Names.
Import Notebook.

(** C8: the names the training job hands to the script are the seven of
    the hyperparameter surface, in its order; the tuning job's fixed
    hyperparameters and its two ranges name the same seven, each once; so
    every name a job definition uses is a name of the surface, verbatim. *)
Theorem hyperparameter_names :
  training_job_names = hyperparameter_surface
  /\ Permutation tuning_job_names hyperparameter_surface
  /\ NoDup hyperparameter_surface
  /\ (forall name, In name (training_job_names ++ tuning_job_names)%list ->
                   In name hyperparameter_surface).
Proof.
  split; [reflexivity | ]. split; [ | split].
  - unfold tuning_job_names, hyperparameter_surface. cbn.
    do 3 apply perm_skip.
    apply (Permutation_app_comm ["seed"; "save-model"] ["lr"; "gamma"]).
  - apply (bool_decide_unpack _). vm_compute. exact I.
  - intros name. cbn. intuition.
Qed.

End Names.

(* ===================================================================== *)
(** * The lines of a training run *)
(* ===================================================================== *)

Section Batches.
Context {T : Torch}.
Import Py Script.

Lemma len_batch_at n l k :
  Z.of_nat k * Z.of_nat n + Z.of_nat n <= len l ->
  len (batch_at n l k) = Z.of_nat n.
Proof.
  unfold len, batch_at. intros H. rewrite length_take, length_drop. lia.
Qed.

Lemma concat_batches n l m :
  concat (map (batch_at n l) (seq 0 m)) = firstn (m * n) l.
Proof.
  induction m as [ | m IH]; [reflexivity | ].
  rewrite seq_S, map_app, concat_app, IH. cbn [map concat plus].
  rewrite app_nil_r. unfold batch_at. rewrite take_take_drop.
  f_equal. lia.
Qed.

Lemma enumerate_from_seq {A} (B : nat -> A) n :
  forall a, enumerate_from (Z.of_nat a) (map B (seq a n))
            = map (fun k => (Z.of_nat k, B k)) (seq a n).
Proof.
  induction n as [ | n IH]; intros a; [reflexivity | ].
  cbn [seq map enumerate_from]. f_equal.
  replace (Z.of_nat a + 1) with (Z.of_nat (S a)) by lia. apply IH.
Qed.

Lemma enumerate_from_ge {A} (l : list A) :
  forall i x, In x (enumerate_from i l) -> i <= fst x.
Proof.
  induction l as [ | a l IH]; intros i x; [intros [] | ].
  intros [<- | H]; [simpl; lia | ]. apply IH in H. lia.
Qed.

Lemma flat_map_map_compose {A B C} (f : B -> list C) (g : A -> B) l :
  flat_map f (map g l) = flat_map (fun x => f (g x)) l.
Proof. induction l as [ | a l IH]; simpl; [reflexivity | rewrite IH; reflexivity]. Qed.

Lemma flat_map_agree {A B} (f g : A -> list B) l :
  (forall x, In x l -> f x = g x) -> flat_map f l = flat_map g l.
Proof.
  induction l as [ | a l IH]; intros H; [reflexivity | ].
  cbn [flat_map]. rewrite (H a), IH; [reflexivity | | left; reflexivity].
  intros x Hx. apply H. right. exact Hx.
Qed.

Lemma flat_map_when {A B} (c : A -> bool) (f : A -> B) l :
  flat_map (fun x => if c x then [f x] else []) l = map f (List.filter c l).
Proof.
  induction l as [ | a l IH]; [reflexivity | ].
  cbn [flat_map List.filter]. rewrite IH. destruct (c a); reflexivity.
Qed.

Lemma count_correct_le dev w data : 0 <= count_correct dev w data <= len data.
Proof.
  unfold count_correct, len. split; [lia | ].
  apply inj_le. apply filter_length_le.
Qed.

Lemma count_correct_app dev w a b :
  count_correct dev w (a ++ b) = count_correct dev w a + count_correct dev w b.
Proof. unfold count_correct, len. rewrite List.filter_app, length_app. lia. Qed.

Lemma test_loop_correct dev w bs :
  forall s c, snd (test_loop dev w s c bs) = c + count_correct dev w (concat bs).
Proof.
  induction bs as [ | b bs IH]; intros s c; simpl.
  - unfold count_correct, len. simpl. lia.
  - rewrite IH, count_correct_app. lia.
Qed.

End Batches.

Section Runs.
Context {T : Torch}.
Import Py Script.

Lemma percent_inr k n :
  is_zero (float_of_int n) = false -> percent k n = inr (percent_value k n).
Proof. unfold percent, fdiv. intros ->. reflexivity. Qed.

Lemma log_progress_run (args : namespace) epoch total nb idx data loss loss_of p :
  log_interval args <> 0 -> is_zero (float_of_int nb) = false -> loss_of idx = loss ->
  log_progress args epoch total nb idx data loss p
  = (inr tt,
     Proc (fs p)
          (stdout p ++ progress_line (log_interval args) epoch total nb loss_of (idx, data))
          (gen p) (used p)).
Proof.
  unfold log_progress, imod, progress_line. intros Hi Hn <-.
  rewrite (proj2 (Z.eqb_neq _ _) Hi). cbn [lift fst snd]. unfold bind at 1, ret at 1.
  destruct (idx mod log_interval args =? 0).
  - rewrite percent_inr by exact Hn. reflexivity.
  - unfold ret. rewrite app_nil_r. destruct p; reflexivity.
Qed.

(** The progress lines of one pass, batch by batch. *)
Lemma train_loop_lines (args : namespace) dev epoch total nb :
  log_interval args <> 0 -> is_zero (float_of_int nb) = false ->
  forall bs i w o p,
  exists w' o' g' loss_of,
    train_loop args dev epoch total nb w o (enumerate_from i bs) p
    = (inr (w', o'),
       Proc (fs p)
            (stdout p ++ flat_map (progress_line (log_interval args) epoch total nb loss_of)
                                  (enumerate_from i bs))
            g' (used p ++ repeat dev (length bs))).
Proof.
  intros Hi Hn. induction bs as [ | b bs IH]; intros i w o p.
  - exists w, o, (gen p), (fun _ => S754_nan). cbn. unfold ret.
    rewrite !app_nil_r. destruct p; reflexivity.
  - cbn [enumerate_from train_loop]. unfold bind at 1, on.
    destruct (train_batch dev w o b (gen p)) as [[[w1 o1] l1] g1].
    set (p1 := Proc (fs p) (stdout p) g1 (used p ++ [dev])).
    destruct (IH (i + 1) w1 o1
                (Proc (fs p1)
                      (stdout p1 ++ progress_line (log_interval args) epoch total nb
                                      (fun _ => l1) (i, b))
                      (gen p1) (used p1)))
      as (w' & o' & g' & loss_of & Hrun).
    exists w', o', g', (fun k => if k =? i then l1 else loss_of k).
    unfold bind.
    rewrite (log_progress_run args epoch total nb i b l1 (fun _ => l1) p1 Hi Hn eq_refl).
    rewrite Hrun. cbn [fs stdout used p1 flat_map length repeat]. f_equal. f_equal.
    + rewrite <- app_assoc. f_equal. f_equal.
      * unfold progress_line. cbn [fst snd]. rewrite Z.eqb_refl. reflexivity.
      * apply flat_map_agree. intros x Hx. apply enumerate_from_ge in Hx.
        unfold progress_line. destruct (x.1 =? i) eqn:E; [ | reflexivity].
        apply Z.eqb_eq in E. lia.
    + rewrite <- app_assoc. reflexivity.
Qed.

Lemma iterate_run ld p :
  iterate ld p
  = (inr (batches ld (fst (shuffle (gen p) (dataset ld)))),
     Proc (fs p) (stdout p) (snd (shuffle (gen p) (dataset ld))) (used p)).
Proof.
  unfold iterate, bind, draw, ret. destruct (shuffle (gen p) (dataset ld)). reflexivity.
Qed.

Lemma test_run dev ld w p :
  is_zero (float_of_int (len (dataset ld))) = false ->
  let l := fst (shuffle (gen p) (dataset ld)) in
  let total := len (dataset ld) in
  let out := test_loop dev w (float_of_int 0) 0 (batches ld l) in
  test dev ld w p
  = (inr tt,
     Proc (fs p)
          (stdout p ++ [ ""; test_line (SFdiv prec emax (fst out) (float_of_int total))
                                 (snd out) total (percent_value (snd out) total); "" ])
          (snd (shuffle (gen p) (dataset ld)))
          (used p ++ repeat dev (length (batches ld l)))).
Proof.
  intros Hz l total out. unfold test. unfold bind at 1. rewrite iterate_run.
  fold l. rewrite bind_on_each. fold out. subst total. destruct out as [s c].
  cbn [fst snd]. cbv zeta.
  unfold fdiv. rewrite Hz. cbn [lift]. unfold bind at 1, ret at 1.
  rewrite percent_inr by exact Hz. cbn [lift]. unfold bind, ret, print.
  cbn [fs stdout gen used]. rewrite <- !app_assoc. reflexivity.
Qed.

End Runs.

Section Scenario.
Context {T : Torch} {L : TorchLaws T}.
Import Py Script.

Lemma shuffle_len g (l : list sample) : len (fst (shuffle g l)) = len l.
Proof. unfold len. f_equal. apply Permutation_length, shuffle_perm. Qed.

Lemma train_run (args : namespace) dev ld w o epoch p :
  log_interval args <> 0 -> is_zero (float_of_int (loader_len ld)) = false ->
  exists w' o' g' loss_of,
    train args dev ld w o epoch p
    = (inr (w', o'),
       Proc (fs p)
            (stdout p
             ++ flat_map (progress_line (log_interval args) epoch (len (dataset ld))
                            (loader_len ld) loss_of)
                  (enumerate (batches ld (fst (shuffle (gen p) (dataset ld))))))
            g'
            (used p ++ repeat dev (length (batches ld (fst (shuffle (gen p) (dataset ld))))))).
Proof.
  intros Hi Hn. unfold train, bind. rewrite iterate_run.
  destruct (train_loop_lines args dev epoch (len (dataset ld)) (loader_len ld) Hi Hn
              (batches ld (fst (shuffle (gen p) (dataset ld)))) 0 w o
              (Proc (fs p) (stdout p) (snd (shuffle (gen p) (dataset ld))) (used p)))
    as (w' & o' & g' & loss_of & H).
  exists w', o', g', loss_of. exact H.
Qed.

(** Of 938 batches of 64 out of 60000 samples, every tenth is logged: batches
    0, 10, ..., 930, each of them full. *)
Lemma scenario_lines (d l : list sample) loss_of :
  len d = 60000 -> len l = 60000 ->
  flat_map (progress_line 10 1 60000 938 loss_of) (enumerate (batches (Loader d 64) l))
  = map (fun i => train_line 1 (640 * Z.of_nat i) 60000
                    (percent_value (10 * Z.of_nat i) 938) (loss_of (10 * Z.of_nat i)))
        (seq 0 94).
Proof.
  intros Hd Hl. unfold batches, loader_len. cbn [dataset per_batch]. rewrite Hd.
  change (Z.to_nat ((60000 + 64 - 1) / 64)) with 938%nat.
  change (Z.to_nat 64) with 64%nat.
  unfold enumerate. pose proof (enumerate_from_seq (batch_at 64 l) 938 0) as E.
  change (Z.of_nat 0) with 0 in E. rewrite E. clear E.
  rewrite flat_map_map_compose. unfold progress_line. cbn [fst snd].
  rewrite (flat_map_when (fun k => Z.of_nat k mod 10 =? 0)
             (fun k => train_line 1 (Z.of_nat k * len (batch_at 64 l k)) 60000
                         (percent_value (Z.of_nat k) 938) (loss_of (Z.of_nat k)))).
  replace (List.filter (fun k => Z.of_nat k mod 10 =? 0) (seq 0 938))
    with (map (fun i => 10 * i)%nat (seq 0 94)) by (vm_compute; reflexivity).
  rewrite map_map. apply map_ext_in. intros i Hi. apply in_seq in Hi.
  rewrite len_batch_at by lia.
  replace (Z.of_nat (10 * i)) with (10 * Z.of_nat i) by lia.
  f_equal. lia.
Qed.

End Scenario.

Section Percentages.
Import Py Script.

Lemma whole_format x z : whole x = Some z -> format_f 0 x = str z.
Proof.
  destruct x as [[ | ] | | | [ | ] m e]; simpl; intros [= <-]; reflexivity.
Qed.

Lemma percent_range total k :
  whole_percent_ok total k = true ->
  exists z, format_f 0 (percent_value k total) = str z /\ 0 <= z <= 100.
Proof.
  unfold whole_percent_ok. destruct (whole (percent_value k total)) as [z | ] eqn:Hw;
    [ | discriminate].
  intros H. apply andb_prop in H as [H0 H1]. exists z. split.
  - apply whole_format. exact Hw.
  - apply Z.leb_le in H0, H1. lia.
Qed.

(** Every count of correct answers out of 10000 prints as a whole
    percentage between 0 and 100. *)
Lemma in_count_from n : forall a k, a <= k < a + Z.of_nat n -> In k (count_from a n).
Proof.
  induction n as [ | n IH]; intros a k H; [lia | ].
  cbn [count_from]. destruct (Z.eq_dec a k) as [-> | Hne]; [left; reflexivity | ].
  right. apply IH. lia.
Qed.

Lemma percents_of_10000 k : 0 <= k <= 10000 -> whole_percent_ok 10000 k = true.
Proof.
  intros Hk.
  assert (H : forallb (whole_percent_ok 10000) (count_from 0 (N.to_nat 10001)) = true)
    by (vm_compute; reflexivity).
  rewrite forallb_forall in H. apply H. apply in_count_from. lia.
Qed.

End Percentages.

Section ScenarioRun.
Context {T : Torch} {L : TorchLaws T}.
Import Py Script.

Lemma one_epoch_run (args : namespace) dev (train_set test_set : list sample) w o p :
  batch_size args = 64 -> log_interval args = 10 -> 0 < test_batch_size args ->
  len train_set = 60000 -> len test_set = 10000 ->
  exists (loss : nat -> float) avg correct w' o' g' u',
    epoch_loop args dev (Loader train_set (batch_size args))
               (Loader test_set (test_batch_size args)) w o [1] p
    = (inr (w', o'),
       Proc (fs p)
            (stdout p
             ++ map (fun i => train_line 1 (640 * Z.of_nat i) 60000
                                (percent_value (10 * Z.of_nat i) 938) (loss i))
                    (seq 0 94)
             ++ [ ""; test_line avg correct 10000 (percent_value correct 10000); "" ])
            g' u')
    /\ 0 <= correct <= 10000.
Proof.
  intros Hb Hi Ht Htrain Htest. rewrite Hb. cbn [epoch_loop]. unfold bind at 1.
  destruct (train_run args dev (Loader train_set 64) w o 1 p) as (w1 & o1 & g1 & loss_of & Hrun).
  { rewrite Hi. discriminate. }
  { unfold loader_len. cbn [dataset per_batch]. rewrite Htrain. vm_compute. reflexivity. }
  rewrite Hrun. clear Hrun. cbn [dataset]. rewrite Htrain, Hi.
  replace (loader_len (Loader train_set 64)) with 938
    by (unfold loader_len; cbn [dataset per_batch]; rewrite Htrain; reflexivity).
  rewrite scenario_lines;
    [ | exact Htrain | etransitivity; [apply shuffle_len | exact Htrain]].
  unfold bind at 1. rewrite test_run
    by (cbn [dataset]; rewrite Htest; vm_compute; reflexivity).
  cbn [dataset fs stdout gen]. rewrite Htest.
  set (ld := Loader test_set (test_batch_size args)).
  set (l := fst (shuffle g1 test_set)).
  set (out := test_loop dev w1 (float_of_int 0) 0 (batches ld l)).
  exists (fun i => loss_of (10 * Z.of_nat i)),
         (SFdiv prec emax (fst out) (float_of_int 10000)), (snd out),
         w1, (step_lr (gamma args) o1), (snd (shuffle g1 test_set)).
  eexists. split.
  - unfold ret. rewrite <- app_assoc. reflexivity.
  - subst out. rewrite test_loop_correct. unfold batches. rewrite concat_batches.
    pose proof (count_correct_le dev w1
                  (firstn (Z.to_nat (loader_len ld) * Z.to_nat (per_batch ld)) l)) as Hc.
    assert (len (firstn (Z.to_nat (loader_len ld) * Z.to_nat (per_batch ld)) l) <= 10000).
    { pose proof (shuffle_len g1 test_set) as Hl. fold l in Hl.
      unfold len in *. rewrite length_take. lia. }
    unfold sample in *. lia.
Qed.

End ScenarioRun.

Section LogLines.
Context {T : Torch} {L : TorchLaws T}.
Import Py Script.

Lemma learn_one_epoch (args : namespace) dev (train_set test_set : list sample) p :
  batch_size args = 64 -> log_interval args = 10 -> epochs args = 1 ->
  0 < test_batch_size args ->
  len train_set = 60000 -> len test_set = 10000 ->
  exists (loss : nat -> float) avg correct w g u,
    learn args dev (train_set, test_set) p
    = (inr w,
       Proc (fs p)
            (stdout p
             ++ map (fun i => train_line 1 (640 * Z.of_nat i) 60000
                                (percent_value (10 * Z.of_nat i) 938) (loss i))
                    (seq 0 94)
             ++ [ ""; test_line avg correct 10000 (percent_value correct 10000); "" ])
            g u)
    /\ 0 <= correct <= 10000.
Proof.
  intros Hb Hi He Ht Htrain Htest.
  unfold learn. cbn [fst snd].
  unfold data_loader. rewrite (proj2 (Z.leb_gt _ _) Ht).
  replace (batch_size args <=? 0) with false by (rewrite Hb; reflexivity).
  rewrite !bind_lift_inr, bind_on.
  destruct (net_init (gen p)) as [w0 g0]. cbn [fst snd].
  rewrite He. change (epoch_range 1) with [1].
  destruct (one_epoch_run args dev train_set test_set w0
              (adadelta w0 (lr args)) (Proc (fs p) (stdout p) g0 (used p ++ [dev]))
              Hb Hi Ht Htrain Htest)
    as (loss & avg & correct & w' & o' & g' & u' & Hrun & Hc).
  exists loss, avg, correct, w', g', u'. split; [ | exact Hc].
  unfold bind. rewrite Hrun. reflexivity.
Qed.

(** The percentages of the 94 logged batches of that epoch are whole
    numbers from 0 to 99. *)
Lemma logged_percents i :
  (i < 94)%nat ->
  exists z, whole (percent_value (10 * Z.of_nat i) 938) = Some z /\ 0 <= z <= 99.
Proof.
  intros Hi.
  assert (Hall : forallb (fun i => match whole (percent_value (10 * Z.of_nat i) 938) with
                                   | Some z => (0 <=? z) && (z <=? 99)
                                   | None => false
                                   end) (seq 0 94) = true)
    by (vm_compute; reflexivity).
  rewrite forallb_forall in Hall.
  specialize (Hall i). rewrite in_seq in Hall. specialize (Hall ltac:(lia)).
  destruct (whole _) as [z | ]; [ | discriminate].
  exists z. split; [reflexivity | lia].
Qed.

(** C3: a run that has parsed its configuration prints, after the lines
    of the download when the data set was not in place, nothing but blank
    lines, progress lines
    [Train Epoch: {epoch} [{done}/{total} ({pct}%)]<tab>Loss: {loss:.6f}]
    and summary lines
    [Test set: Average loss: {avg_loss:.4f}, Accuracy: {correct}/{total} ({pct}%)];
    one epoch over 60000 training samples in place, in batches of 64 and
    logged every tenth batch, completes and prints exactly the 94 progress
    lines of batches 0, 10, ..., 930, from [[0/60000 (0%)]] to
    [[59520/60000 (99%)]], each with a whole percentage, then a blank
    line, the one summary line over the 10000 test samples, whose
    percentage is a whole number between 0 and 100, and a blank line. *)
Theorem log_lines :
  (forall env av h disk p args,
      parse_args env av h = inr args ->
      exists new,
        stdout (snd (main env av h disk p))
        = (stdout p ++ fetch_lines disk (data_dir args) ++ new)%list
        /\ Forall log_format new)
  /\ (forall env av h disk p args (train_set test_set : list sample),
         parse_args env av h = inr args ->
         disk !! data_dir args = Some (train_set, test_set) ->
         len train_set = 60000 -> len test_set = 10000 ->
         batch_size h = 64 -> log_interval h = 10 -> epochs h = 1 ->
         0 < test_batch_size h ->
         exists (pct : nat -> Z) (loss : nat -> float) avg correct z,
           let line := fun i : nat =>
             "Train Epoch: 1 [" ++ str (640 * Z.of_nat i) ++ "/60000 ("
               ++ str (pct i) ++ "%)]" ++ horizontal_tab ++ "Loss: "
               ++ format_f 6 (loss i) in
           fst (main env av h disk p) = inr tt
           /\ stdout (snd (main env av h disk p))
              = (stdout p
                 ++ map line (seq 0 94)
                 ++ [ "";
                      ("Test set: Average loss: " ++ format_f 4 avg ++ ", Accuracy: "
                         ++ str correct ++ "/10000 (" ++ str z ++ "%)")%string;
                      "" ])%list
           /\ line 0%nat
              = "Train Epoch: 1 [0/60000 (0%)]" ++ horizontal_tab ++ "Loss: "
                  ++ format_f 6 (loss 0%nat)
           /\ line 93%nat
              = "Train Epoch: 1 [59520/60000 (99%)]" ++ horizontal_tab ++ "Loss: "
                  ++ format_f 6 (loss 93%nat)
           /\ (forall i, (i < 94)%nat -> 0 <= pct i <= 99)
           /\ 0 <= correct <= 10000
           /\ 0 <= z <= 100).
Proof.
  split.
  - intros env av h disk p args Hp. rewrite (main_parsed _ _ _ _ _ _ Hp).
    destruct (training_lines args disk p) as (new & Hnew & Hall).
    exists new. split; [ | exact Hall]. rewrite <- Hnew.
    destruct (training args disk p) as [[e | w] p1]; [reflexivity | ].
    apply save_step_silent.
  - intros env av h disk p args train_set test_set Hp Hdisk Htrain Htest Hb Hi He Ht.
    pose proof (parse_args_hp _ _ _ _ Hp) as Hh.
    rewrite (main_parsed _ _ _ _ _ _ Hp), training_split.
    unfold load_mnist. rewrite Hdisk. unfold ret.
    destruct (learn_one_epoch args (device_of (use_cuda args)) train_set test_set
                (Proc (fs p) (stdout p) (manual_seed (seed args)) (used p)))
      as (loss & avg & correct & w & g & u & Hrun & Hc);
      try (rewrite Hh; assumption); try assumption.
    rewrite Hrun, save_step_files. cbn [fst snd stdout].
    destruct (percent_range 10000 correct (percents_of_10000 correct Hc))
      as (z & Hz & Hrange).
    exists (fun i => default 0 (whole (percent_value (10 * Z.of_nat i) 938))),
           loss, avg, correct, z.
    cbv zeta. split; [reflexivity | ].
    split; [ | split; [ | split; [ | split; [ | split; [exact Hc | exact Hrange]]]]].
    + apply f_equal. apply f_equal2.
      * apply map_ext_in. intros i Hin. apply in_seq in Hin.
        destruct (logged_percents i ltac:(lia)) as (y & Hy & _).
        unfold train_line. rewrite (whole_format _ _ Hy), Hy. reflexivity.
      * unfold test_line. rewrite Hz. reflexivity.
    + replace (whole (percent_value (10 * Z.of_nat 0) 938)) with (Some 0)
        by (vm_compute; reflexivity).
      reflexivity.
    + replace (whole (percent_value (10 * Z.of_nat 93) 938)) with (Some 99)
        by (vm_compute; reflexivity).
      reflexivity.
    + intros i Hlt. destruct (logged_percents i Hlt) as (y & Hy & Hr).
      rewrite Hy. exact Hr.
Qed.

End LogLines.

Lemma toy_laws : TorchLaws Toy.torch.
Proof.
  split.
  - intros g l. cbn. destruct (Z.even g); [symmetry; apply Permutation_rev | reflexivity].
  - intros w. reflexivity.
Qed.

Lemma log_lines_witness :
  exists (pct : nat -> Z) (loss : nat -> Py.float) avg correct z,
    let line := fun i : nat =>
      "Train Epoch: 1 [" ++ Py.str (640 * Z.of_nat i) ++ "/60000 ("
        ++ Py.str (pct i) ++ "%)]" ++ horizontal_tab ++ "Loss: "
        ++ Py.format_f 6 (loss i) in
    fst (Script.main (T := Toy.torch) Example.environ [] Example.hyper Example.disk
           (Example.boot 7)) = inr tt
    /\ stdout (snd (Script.main (T := Toy.torch) Example.environ [] Example.hyper
                      Example.disk (Example.boot 7)))
       = (stdout (Example.boot 7)
          ++ map line (seq 0 94)
          ++ [ "";
               ("Test set: Average loss: " ++ Py.format_f 4 avg ++ ", Accuracy: "
                  ++ Py.str correct ++ "/10000 (" ++ Py.str z ++ "%)")%string;
               "" ])%list
    /\ line 0%nat
       = "Train Epoch: 1 [0/60000 (0%)]" ++ horizontal_tab ++ "Loss: "
           ++ Py.format_f 6 (loss 0%nat)
    /\ line 93%nat
       = "Train Epoch: 1 [59520/60000 (99%)]" ++ horizontal_tab ++ "Loss: "
           ++ Py.format_f 6 (loss 93%nat)
    /\ (forall i, (i < 94)%nat -> 0 <= pct i <= 99)
    /\ 0 <= correct <= 10000
    /\ 0 <= z <= 100.
Proof.
  apply (proj2 (log_lines (T := Toy.torch) (L := toy_laws))
           Example.environ [] Example.hyper Example.disk (Example.boot 7)
           Example.host_args (fst Example.mnist) (snd Example.mnist)).
  - vm_compute. reflexivity.
  - reflexivity.
  - vm_compute. reflexivity.
  - vm_compute. reflexivity.
  - reflexivity.
  - reflexivity.
  - reflexivity.
  - reflexivity.
Defined.
(* ===================================================================== *)
(** * Reproducible runs *)
(* ===================================================================== *)

Section Reproducible.
Context {T : Torch}.
Import Py Script.

Lemma agree_silent {A} (m : M A) p q :
  fst (m p) = fst (m q) -> gen (snd (m p)) = gen (snd (m q)) ->
  stdout (snd (m p)) = stdout p -> stdout (snd (m q)) = stdout q ->
  agree m p q.
Proof.
  intros Hr Hg Hp Hq. split; [exact Hr | split; [exact Hg | ]].
  exists []. rewrite !app_nil_r. auto.
Qed.

Lemma ret_generator_only {A} (a : A) : generator_only (ret a).
Proof. intros p q Hg. apply agree_silent; auto. Qed.

Lemma raise_generator_only {A} e : generator_only (raise (A := A) e).
Proof. intros p q Hg. apply agree_silent; auto. Qed.

Lemma lift_generator_only {A} (r : result A) : generator_only (lift r).
Proof. destruct r; [apply raise_generator_only | apply ret_generator_only]. Qed.

Lemma print_generator_only line : generator_only (print line).
Proof.
  intros p q Hg. split; [reflexivity | split; [exact Hg | ]].
  exists [line]. split; reflexivity.
Qed.

Lemma draw_generator_only {A} (f : Gen -> A * Gen) : generator_only (draw f).
Proof.
  intros p q Hg. apply agree_silent; unfold draw; rewrite <- ?Hg;
    destruct (f (gen p)); reflexivity.
Qed.

Lemma on_generator_only {A} dev (f : device -> Gen -> A * Gen) :
  generator_only (on dev f).
Proof.
  intros p q Hg. apply agree_silent; unfold on; rewrite <- ?Hg;
    destruct (f dev (gen p)); reflexivity.
Qed.

Lemma on_each_generator_only {A B} dev (l : list B) (f : device -> A) :
  generator_only (on_each dev l f).
Proof. intros p q Hg. apply agree_silent; auto. Qed.

Lemma write_files_generator_only files : generator_only (write_files files).
Proof. intros p q Hg. apply agree_silent; auto. Qed.

Lemma print_lines_generator_only lines : generator_only (print_lines lines).
Proof.
  intros p q Hg. split; [reflexivity | split; [exact Hg | ]].
  exists lines. split; reflexivity.
Qed.

Lemma bind_generator_only {A B} (m : M A) (k : A -> M B) :
  generator_only m -> (forall a, generator_only (k a)) -> generator_only (bind m k).
Proof.
  intros Hm Hk p q Hg. destruct (Hm p q Hg) as (Hr & Hg1 & new1 & Hp1 & Hq1).
  unfold agree, bind.
  destruct (m p) as [[e | a] p1], (m q) as [[e' | a'] q1]; cbn [fst snd] in *;
    try discriminate.
  - injection Hr as <-. split; [reflexivity | split; [exact Hg1 | eauto]].
  - injection Hr as <-.
    destruct (Hk a p1 q1 Hg1) as (Hr2 & Hg2 & new2 & Hp2 & Hq2).
    split; [exact Hr2 | split; [exact Hg2 | ]].
    exists (new1 ++ new2)%list. rewrite Hp2, Hq2, Hp1, Hq1, !app_assoc. auto.
Qed.

(** Seeding first makes what follows independent of the generator the
    process started with. *)
Lemma seeded_reproducible {B} g (k : unit -> M B) :
  generator_only (k tt) -> reproducible (bind (set_gen g) k).
Proof.
  intros Hk p q. unfold agree. rewrite !bind_set_gen.
  destruct (Hk (Proc (fs p) (stdout p) g (used p)) (Proc (fs q) (stdout q) g (used q))
              eq_refl)
    as (Hr & Hg & new & Hp & Hq).
  split; [exact Hr | split; [exact Hg | eauto]].
Qed.

Lemma log_progress_generator_only args epoch total n idx data loss :
  generator_only (log_progress args epoch total n idx data loss).
Proof.
  unfold log_progress. apply bind_generator_only; [apply lift_generator_only | intros r].
  destruct (r =? 0); [ | apply ret_generator_only].
  apply bind_generator_only; [apply lift_generator_only | intros pct].
  apply print_generator_only.
Qed.

Lemma train_loop_generator_only args dev epoch total n todo :
  forall w o, generator_only (train_loop args dev epoch total n w o todo).
Proof.
  induction todo as [ | [idx data] rest IH]; intros w o; cbn [train_loop].
  - apply ret_generator_only.
  - apply bind_generator_only; [apply on_generator_only | intros [[w' o'] loss]].
    apply bind_generator_only; [apply log_progress_generator_only | intros _; apply IH].
Qed.

Lemma iterate_generator_only ld : generator_only (iterate ld).
Proof.
  unfold iterate. apply bind_generator_only;
    [apply draw_generator_only | intros; apply ret_generator_only].
Qed.

Lemma train_generator_only args dev ld w o epoch :
  generator_only (train args dev ld w o epoch).
Proof.
  unfold train. apply bind_generator_only;
    [apply iterate_generator_only | intros; apply train_loop_generator_only].
Qed.

Lemma test_generator_only dev ld w : generator_only (test dev ld w).
Proof.
  unfold test. apply bind_generator_only; [apply iterate_generator_only | intros bs].
  apply bind_generator_only; [apply on_each_generator_only | intros [l c]].
  apply bind_generator_only; [apply lift_generator_only | intros avg].
  apply bind_generator_only; [apply lift_generator_only | intros pct].
  repeat (apply bind_generator_only; [apply print_generator_only | intros _]).
  apply print_generator_only.
Qed.

Lemma epoch_loop_generator_only args dev tr te todo :
  forall w o, generator_only (epoch_loop args dev tr te w o todo).
Proof.
  induction todo as [ | e rest IH]; intros w o; cbn [epoch_loop].
  - apply ret_generator_only.
  - apply bind_generator_only; [apply train_generator_only | intros [w' o']].
    apply bind_generator_only; [apply test_generator_only | intros _; apply IH].
Qed.

Lemma load_mnist_generator_only disk root : generator_only (load_mnist disk root).
Proof.
  unfold load_mnist. destruct (disk !! root) as [d | ]; [apply ret_generator_only | ].
  destruct (mnist_fetch root) as [[files lines] fetched].
  apply bind_generator_only; [apply write_files_generator_only | intros _].
  apply bind_generator_only; [apply print_lines_generator_only | intros _].
  destruct fetched; [apply ret_generator_only | apply raise_generator_only].
Qed.

Lemma learn_generator_only args dev sets : generator_only (learn args dev sets).
Proof.
  unfold learn.
  apply bind_generator_only; [apply lift_generator_only | intros trl].
  apply bind_generator_only; [apply lift_generator_only | intros tel].
  apply bind_generator_only; [apply on_generator_only | intros w0].
  apply bind_generator_only;
    [apply epoch_loop_generator_only | intros [w o]; apply ret_generator_only].
Qed.

Lemma training_reproducible args disk : reproducible (training args disk).
Proof.
  unfold training. apply seeded_reproducible.
  apply bind_generator_only; [apply load_mnist_generator_only | intros sets].
  apply learn_generator_only.
Qed.

(** C9: two runs on the same environment, command line, hyperparameters and
    data end alike whatever state each process started in: same outcome,
    same lines printed, hence the same loss on every progress line and the
    same average loss after every epoch; when they also start from the same
    files they leave the same files, the saved weights included.  The seed
    is applied first, so nothing drawn afterwards depends on the generator
    the process started with. *)
Theorem seeded_runs_agree env av h disk p q :
  fst (main env av h disk p) = fst (main env av h disk q)
  /\ (exists new, stdout (snd (main env av h disk p)) = (stdout p ++ new)%list
                  /\ stdout (snd (main env av h disk q)) = (stdout q ++ new)%list)
  /\ (fs p = fs q -> fs (snd (main env av h disk p)) = fs (snd (main env av h disk q))).
Proof.
  unfold main. destruct (parse_args env av h) as [e | args] eqn:Hp.
  - cbn. split; [reflexivity | split; [ | auto]].
    exists []. rewrite !app_nil_r. auto.
  - cbn [lift]. rewrite !bind_ret. unfold bind.
    destruct (training_reproducible args disk p q) as (Hr & Hg & new & Hp1 & Hq1).
    pose proof (training_files args disk p) as Fp.
    pose proof (training_files args disk q) as Fq.
    destruct (training args disk p) as [[e | w] p1], (training args disk q) as [[e' | w'] q1];
      cbn [fst snd] in *; try discriminate.
    + injection Hr as <-. split; [reflexivity | split; [eauto | congruence]].
    + injection Hr as <-. rewrite !save_step_files. cbn [fst snd fs stdout gen].
      split; [reflexivity | split; [eauto | ]].
      intros Hfs. rewrite Fp, Fq, Hfs. reflexivity.
Qed.

(** Without the seed the outcome does depend on the generator: the network
    is initialised from it. *)
Remark unseeded_runs_differ :
  fst (on (T := Toy.torch) Cpu (fun _ g => net_init g) (Example.boot 7))
  <> fst (on (T := Toy.torch) Cpu (fun _ g => net_init g) (Example.boot 8)).
Proof. vm_compute. discriminate. Qed.

End Reproducible.

Lemma seeded_runs_agree_witness :
  fst (Script.main (T := Toy.torch) Example.environ [] Example.small_hyper
         Example.small_disk (Example.boot 7))
  = fst (Script.main (T := Toy.torch) Example.environ [] Example.small_hyper
           Example.small_disk (Example.boot 8))
  /\ fs (snd (Script.main (T := Toy.torch) Example.environ [] Example.small_hyper
                Example.small_disk (Example.boot 7)))
     = fs (snd (Script.main (T := Toy.torch) Example.environ [] Example.small_hyper
                  Example.small_disk (Example.boot 8))).
Proof.
  destruct (seeded_runs_agree (T := Toy.torch) Example.environ [] Example.small_hyper
              Example.small_disk (Example.boot 7) (Example.boot 8)) as (Hr & _ & Hfs).
  split; [exact Hr | apply Hfs; reflexivity].
Defined.


(* ===================================================================== *)
(** * Saving and loading back *)
(* ===================================================================== *)

Section RoundTrip.
Context {T : Torch}.
Import Py Script.





End RoundTrip.

(* ===================================================================== *)
(** * The serving state machine *)
(* ===================================================================== *)

Section Serving.
Context {T : Torch}.
Import Py Serve.
Variable s : script.
Variable d : defaults.

Lemma predict_unloaded sv r : st sv = Unloaded -> predict s d sv r = sv.
Proof. intros H. unfold predict. rewrite H. reflexivity. Qed.

Lemma predict_state sv r : st (predict s d sv r) = st sv.
Proof.
  unfold predict. destruct (st sv) as [ | w] eqn:E; [exact E | ].
  destruct (input_fn s d (body r) (content_type r)) as [e | x]; [exact E | ].
  destruct (predict_fn s d x w); exact E.
Qed.

Lemma predict_os sv r : os (predict s d sv r) = os sv.
Proof.
  unfold predict. destruct (st sv) as [ | w]; [reflexivity | ].
  destruct (input_fn s d (body r) (content_type r)) as [e | x]; [reflexivity | ].
  destruct (predict_fn s d x w); reflexivity.
Qed.

Lemma predict_ready sv w r :
  st sv = Ready w ->
  calls (predict s d sv r)
  = (calls sv
     ++ match input_fn s d (body r) (content_type r) with
        | inl _ => [(InputFn, true)]
        | inr x => match predict_fn s d x w with
                   | inl _ => [(InputFn, true); (PredictFn, true)]
                   | inr _ => [(InputFn, true); (PredictFn, true); (OutputFn, true)]
                   end
        end)%list
  /\ responses (predict s d sv r)
     = (responses sv
        ++ [match input_fn s d (body r) (content_type r) with
            | inl e => inl e
            | inr x => match predict_fn s d x w with
                       | inl e => inl e
                       | inr y => output_fn s d y (accept r)
                       end
            end])%list.
Proof.
  intros H. unfold predict. rewrite H.
  destruct (input_fn s d (body r) (content_type r)) as [e | x].
  - cbn [calls responses calling respond st]. rewrite H. auto.
  - destruct (predict_fn s d x w) as [e | y];
      cbn [calls responses calling respond st]; rewrite H; cbn [is_ready];
      rewrite <- ?app_assoc; auto.
Qed.

Lemma requests_ready reqs :
  forall sv w,
    st sv = Ready w ->
    st (fold_left (predict s d) reqs sv) = Ready w
    /\ os (fold_left (predict s d) reqs sv) = os sv
    /\ calls (fold_left (predict s d) reqs sv)
       = (calls sv
          ++ flat_map (fun r =>
               match input_fn s d (body r) (content_type r) with
               | inl _ => [(InputFn, true)]
               | inr x => match predict_fn s d x w with
                          | inl _ => [(InputFn, true); (PredictFn, true)]
                          | inr _ => [(InputFn, true); (PredictFn, true); (OutputFn, true)]
                          end
               end) reqs)%list
    /\ responses (fold_left (predict s d) reqs sv)
       = (responses sv
          ++ map (fun r =>
               match input_fn s d (body r) (content_type r) with
               | inl e => inl e
               | inr x => match predict_fn s d x w with
                          | inl e => inl e
                          | inr y => output_fn s d y (accept r)
                          end
               end) reqs)%list.
Proof.
  induction reqs as [ | r reqs IH]; intros sv w H.
  - cbn. rewrite !app_nil_r. auto.
  - cbn [fold_left flat_map map].
    assert (H1 : st (predict s d sv r) = Ready w) by (rewrite predict_state; exact H).
    destruct (IH _ w H1) as (Hst & Hos & Hc & Hr).
    destruct (predict_ready sv w r H) as (Hc1 & Hr1).
    rewrite Hst, Hos, Hc, Hr, Hc1, Hr1, predict_os, <- !app_assoc. auto.
Qed.

Lemma request_calls_ready (f : request -> list call) reqs :
  (forall r, Forall (fun c : call => fst c <> ModelFn /\ snd c = true) (f r)) ->
  Forall (fun c : call => fst c <> ModelFn /\ snd c = true) (flat_map f reqs).
Proof.
  intros Hf. induction reqs as [ | r reqs IH]; [constructor | ].
  cbn [flat_map]. apply Forall_app. split; [apply Hf | exact IH].
Qed.

(** C6: a process lifetime starts [Unloaded] and calls the model-load hook
    first, once, in that state.  If the load succeeds the process is
    [Ready] with the loaded model and stays so; each request then calls
    request-deserialize, predict and response-serialize in this order,
    each on what the hook before returned, each while [Ready] and each the
    script's own hook or else the host's default, and is answered with
    what response-serialize returns (a hook that rejects the request ends
    it and its error is the answer).  If the load fails the process stays
    [Unloaded] and serves nothing.  A request met while [Unloaded] runs no
    hook, no request changes the state, and load is not run again once
    [Ready]. *)
Theorem serving_state_machine model_dir reqs p :
  let deserialize := match s_input_fn s with Some f => f | None => d_input_fn d end in
  let infer := match s_predict_fn s with Some f => f | None => d_predict_fn d end in
  let serialize := match s_output_fn s with Some f => f | None => d_output_fn d end in
  let sv := lifetime s d model_dir reqs p in
  st (start p) = Unloaded /\ calls (start p) = [] /\ responses (start p) = []
  /\ (forall w p1, s_model_fn s model_dir p = (inr w, p1) ->
        st sv = Ready w
        /\ os sv = p1
        /\ calls sv
           = (ModelFn, false)
             :: flat_map (fun r =>
                  match deserialize (body r) (content_type r) with
                  | inl _ => [(InputFn, true)]
                  | inr x =>
                      match infer x w with
                      | inl _ => [(InputFn, true); (PredictFn, true)]
                      | inr _ => [(InputFn, true); (PredictFn, true); (OutputFn, true)]
                      end
                  end) reqs
        /\ responses sv
           = map (fun r =>
                match deserialize (body r) (content_type r) with
                | inl e => inl e
                | inr x =>
                    match infer x w with
                    | inl e => inl e
                    | inr y => serialize y (accept r)
                    end
                end) reqs)
  /\ (forall e p1, s_model_fn s model_dir p = (inl e, p1) ->
        st sv = Unloaded /\ os sv = p1
        /\ calls sv = [(ModelFn, false)] /\ responses sv = [])
  /\ (exists rest,
        calls sv = (ModelFn, false) :: rest
        /\ Forall (fun c : call => fst c <> ModelFn /\ snd c = true) rest)
  /\ length (responses sv) = (if is_ready (st sv) then length reqs else 0)%nat
  /\ (forall sv0 r, st sv0 = Unloaded -> predict s d sv0 r = sv0)
  /\ (forall sv0 r, st (predict s d sv0 r) = st sv0)
  /\ (forall sv0 w, st sv0 = Ready w -> load s model_dir sv0 = sv0).
Proof.
  cbv zeta.
  change (match s_input_fn s with Some f => f | None => d_input_fn d end)
    with (input_fn s d).
  change (match s_predict_fn s with Some f => f | None => d_predict_fn d end)
    with (predict_fn s d).
  change (match s_output_fn s with Some f => f | None => d_output_fn d end)
    with (output_fn s d).
  split; [reflexivity | ]. split; [reflexivity | ]. split; [reflexivity | ].
  assert (Htail : forall sv0 w, st sv0 = Ready w -> load s model_dir sv0 = sv0).
  { intros sv0 w H. unfold load. rewrite H. reflexivity. }
  unfold lifetime, load, start. cbn [st calls responses os calling is_ready app].
  destruct (s_model_fn s model_dir p) as [[e | w] p1] eqn:Hload; cbn [st].
  - cbn [calls responses os length is_ready].
    split; [intros w p2 [=] | ].
    split; [intros e' p2 [= <- <-]; auto | ].
    split; [exists []; split; [reflexivity | constructor] | ].
    split; [reflexivity | ].
    split; [apply predict_unloaded | ].
    split; [apply predict_state | exact Htail].
  - destruct (requests_ready reqs (Server (Ready w) [(ModelFn, false)] [] p1) w eq_refl)
      as (Hst & Hos & Hc & Hr).
    cbn [st calls responses os app] in Hos, Hc, Hr.
    rewrite Hst, Hos, Hc, Hr. cbn [is_ready].
    split; [intros w' p2 [= <- <-]; auto | ].
    split; [intros e' p2 [=] | ].
    split.
    { eexists. split; [reflexivity | ]. apply request_calls_ready. intros r.
      destruct (input_fn s d (body r) (content_type r)) as [e | x];
        [repeat constructor; discriminate | ].
      destruct (predict_fn s d x w); repeat constructor; discriminate. }
    split; [apply length_map | ].
    split; [apply predict_unloaded | ].
    split; [apply predict_state | exact Htail].
Qed.

End Serving.

Lemma serving_state_machine_witness :
  let sv := Serve.lifetime Serve.serve_pytorch_mnist Example.host_defaults "/opt/ml/model"
              Example.requests Example.serving in
  Serve.st sv = Serve.Ready (Byte.x2a : @Weights Toy.torch)
  /\ Serve.os sv = Example.serving
  /\ Serve.calls sv
     = [ (Serve.ModelFn, false);
         (Serve.InputFn, true); (Serve.PredictFn, true); (Serve.OutputFn, true);
         (Serve.InputFn, true);
         (Serve.InputFn, true); (Serve.PredictFn, true); (Serve.OutputFn, true) ]
  /\ Serve.responses sv
     = [ Example.encode (Toy.predict_class Byte.x2a 3) "application/x-npy";
         inl (Py.ValueError "payload");
         Example.encode (Toy.predict_class Byte.x2a 7) "application/x-npy" ].
Proof.
  apply (proj1 (proj2 (proj2 (proj2
           (serving_state_machine (T := Toy.torch) Serve.serve_pytorch_mnist
              Example.host_defaults "/opt/ml/model" Example.requests Example.serving))))
           Byte.x2a Example.serving).
  reflexivity.
Defined.
Section FurtherConfiguration.
Import Py Argparse Script.

Lemma scan_nil : scan [] = inr nothing.
Proof. reflexivity. Qed.

(** The count the parser leaves when no [--num-gpus] is given. *)
Lemma scan_no_count av s :
  scan av = inr s -> argv_lookup "--num-gpus" av = None -> seen_num_gpus s = None.
Proof.
  intros Hs Hno. destruct (scan_reads av s Hs) as ((_ & _ & Rn) & _).
  change (argv_lookup "--num-gpus" av) with (last_given NumGpus (given (pattern av)))
    in Hno.
  rewrite Hno in Rn. exact Rn.
Qed.



(** X3: when the three items are given on the command line, the values of
    the three variables do not matter, as long as they are set. *)
Theorem overrides_shadow_environment env env' av h :
  (forall v, In v sm_variables -> is_Some (env !! v)) ->
  (forall v, In v sm_variables -> is_Some (env' !! v)) ->
  is_Some (argv_lookup "--model-dir" av) ->
  is_Some (argv_lookup "--data-dir" av) ->
  is_Some (argv_lookup "--num-gpus" av) ->
  parse_args env av h = parse_args env' av h.
Proof.
  intros H H' [m Hm] [d Hd] [n Hn].
  destruct (H "SM_MODEL_DIR") as [a1 E1]; [cbn; auto | ].
  destruct (H "SM_CHANNEL_TRAINING") as [a2 E2]; [cbn; auto | ].
  destruct (H "SM_NUM_GPUS") as [a3 E3]; [cbn; auto | ].
  destruct (H' "SM_MODEL_DIR") as [b1 F1]; [cbn; auto | ].
  destruct (H' "SM_CHANNEL_TRAINING") as [b2 F2]; [cbn; auto | ].
  destruct (H' "SM_NUM_GPUS") as [b3 F3]; [cbn; auto | ].
  rewrite (parse_args_present env av h a1 a2 a3 E1 E2 E3).
  rewrite (parse_args_present env' av h b1 b2 b3 F1 F2 F3).
  destruct (scan av) as [status | s] eqn:Hs; [reflexivity | ].
  destruct (scan_reads av s Hs) as ((Rm & Rd & Rn) & _).
  change (argv_lookup "--model-dir" av) with (last_given ModelDir (given (pattern av)))
    in Hm.
  change (argv_lookup "--data-dir" av) with (last_given DataDir (given (pattern av)))
    in Hd.
  change (argv_lookup "--num-gpus" av) with (last_given NumGpus (given (pattern av)))
    in Hn.
  rewrite Hm in Rm. rewrite Hd in Rd. rewrite Hn in Rn. rewrite Rm, Rd.
  assert (Hc : exists x, seen_num_gpus s = Some x).
  { destruct (String.eqb n "--"); [eauto | ]. destruct Rn as (k & _ & Rn). eauto. }
  destruct Hc as (x & ->). reflexivity.
Qed.

(** X4: a count that is blank text is refused: with the variables all set
    and no [--num-gpus] given, no command line parses; the parser exits,
    under host management with status 2.  The blank text is not read as
    zero. *)
Theorem blank_count_is_refused env av h text :
  is_Some (env !! "SM_MODEL_DIR") -> is_Some (env !! "SM_CHANNEL_TRAINING") ->
  env !! "SM_NUM_GPUS" = Some text ->
  argv_lookup "--num-gpus" av = None ->
  Forall (fun c => is_space c = true) (chars text) ->
  (exists status, parse_args env av h = inl (SystemExit status))
  /\ parse_args env [] h = inl (SystemExit 2).
Proof.
  intros [m Hm] [d Hd] Hn Hno Hblank.
  rewrite !(parse_args_present env _ h m d text Hm Hd Hn), scan_nil.
  cbn [or_default_int seen_num_gpus nothing]. rewrite (int_blank text Hblank).
  split; [ | reflexivity].
  destruct (scan av) as [status | s] eqn:Hs; [eauto | ].
  rewrite (scan_no_count av s Hs Hno). cbn [or_default_int].
  rewrite (int_blank text Hblank). eauto.
Qed.

End FurtherConfiguration.

Section FurtherMetrics.
Import Py Re Script.

Lemma search_at_inv items s g :
  search_at items s = Some g ->
  exists s1 s2, s = (s1 ++ s2)%list /\ run items s2 None [] = Some g.
Proof.
  induction s as [ | c s IH]; cbn [search_at].
  - destruct (run items [] None []) eqn:E; [ | discriminate].
    intros [= <-]. exists [], []. auto.
  - destruct (run items (c :: s) None []) eqn:E.
    + intros [= <-]. exists [], (c :: s). auto.
    + intros H. apply IH in H as (s1 & s2 & -> & H). exists (c :: s1), s2. auto.
Qed.

Lemma run_lits_inv u r :
  forall s cur caps g,
    run (map Lit u ++ r) s cur caps = Some g -> exists s', s = (u ++ s')%list.
Proof.
  induction u as [ | a u IH]; intros s cur caps g; [eauto | ].
  cbn [map app]. destruct s as [ | c s]; [discriminate | ].
  rewrite run_lit. destruct (Ascii.eqb_spec a c) as [<- | _]; [ | discriminate].
  intros H. apply IH in H as [s' ->]. eauto.
Qed.

Lemma string_of_chars_app a b :
  string_of_list_ascii (a ++ b)
  = string_of_list_ascii a ++ string_of_list_ascii b.
Proof. induction a as [ | c a IH]; simpl; [reflexivity | rewrite IH; reflexivity]. Qed.

Lemma search_needs_literals u r pattern line g :
  compile false (chars pattern) = Some (map Lit (chars u) ++ r)%list ->
  search pattern line = Some g ->
  exists pre post, line = pre ++ u ++ post.
Proof.
  unfold search. intros -> H.
  apply search_at_inv in H as (s1 & s2 & Hs & H).
  apply run_lits_inv in H as [s' ->].
  exists (string_of_list_ascii s1), (string_of_list_ascii s').
  rewrite <- (string_of_list_ascii_of_string line).
  change (list_ascii_of_string line) with (chars line). rewrite Hs.
  rewrite !string_of_chars_app. unfold chars.
  rewrite string_of_list_ascii_of_string. reflexivity.
Qed.

Lemma train_loss_items :
  compile false (chars (Notebook.metric_regex "train:loss"))
  = Some (map Lit (chars "Train Epoch: ")
            ++ AnyPlus :: map Lit (chars "Loss: ") ++ [Open; AnyPlus; Close])%list.
Proof. vm_compute. reflexivity. Qed.

Lemma val_loss_items :
  compile false (chars (Notebook.metric_regex "val:loss"))
  = Some (map Lit (chars "Test set: Average loss: ")
            ++ [Open; AnyPlus; Close; Lit ","])%list.
Proof. vm_compute. reflexivity. Qed.

Lemma val_accuracy_items :
  compile false (chars (Notebook.metric_regex "val:accuracy"))
  = Some (map Lit (chars "Test set: Average loss: ")
            ++ Open :: AnyPlus :: Close :: map Lit (chars ", Accuracy: ")
            ++ AnyPlus :: Lit " " :: Lit "("
               :: [Open; AnyPlus; Close; Lit "%"; Lit ")"])%list.
Proof. vm_compute. reflexivity. Qed.

(** X5: a metric definition finds nothing on a line that does not hold the
    literal text its pattern starts with. *)
Theorem metric_needs_its_prefix line g :
  (forall name, In name ["train:loss"; "train:accuracy"] ->
     search (Notebook.metric_regex name) line = Some g ->
     exists pre post, line = pre ++ "Train Epoch: " ++ post)
  /\ (forall name, In name ["val:loss"; "val:accuracy"] ->
     search (Notebook.metric_regex name) line = Some g ->
     exists pre post, line = pre ++ "Test set: Average loss: " ++ post).
Proof.
  split; intros name [<- | [<- | []]].
  - eapply search_needs_literals. exact train_loss_items.
  - eapply search_needs_literals. exact train_accuracy_items.
  - eapply search_needs_literals. exact val_loss_items.
  - eapply search_needs_literals. exact val_accuracy_items.
Qed.

Lemma append_assoc (a b c : string) : (a ++ b) ++ c = a ++ b ++ c.
Proof.
  induction a as [ | x a IH]; [reflexivity | ].
  change (String x ((a ++ b) ++ c) = String x (a ++ b ++ c)).
  rewrite IH. reflexivity.
Qed.

Lemma chars_nonempty a : a <> "" -> chars a <> [].
Proof. destruct a; [congruence | discriminate]. Qed.

Lemma string_of_chars a : string_of_list_ascii (chars a) = a.
Proof. apply string_of_list_ascii_of_string. Qed.

(** The last [.+] of a pattern takes the rest of the line. *)
Lemma any_plus_rest r u caps g :
  u <> [] -> Forall (fun c => c <> newline) u ->
  forall cur, run r [] (pushes u cur) caps = Some g ->
              run (AnyPlus :: r) u cur caps = Some g.
Proof.
  intros Hne Hnl cur H. rewrite <- (app_nil_r u).
  apply any_plus_last; auto.
  intros v1 v2 cur' Hv Hv1. destruct v1; [congruence | discriminate].
Qed.

(** X6: [train:loss] captures what follows the last [Loss: ] of a line
    that starts with [Train Epoch: ]; on a progress line of the script
    that is the loss field. *)
Theorem train_loss_capture :
  (forall a b,
      a <> "" -> b <> "" ->
      Forall (fun c => c <> newline) (chars a) ->
      Forall (fun c => c <> newline /\ c <> "L"%char) (chars b) ->
      search (Notebook.metric_regex "train:loss")
             ("Train Epoch: " ++ a ++ "Loss: " ++ b)
      = Some [b])
  /\ (forall epoch done total pct loss,
      search (Notebook.metric_regex "train:loss")
             (train_line epoch done total pct loss)
      = Some [format_f 6 loss]).
Proof.
  assert (General : forall a b,
      a <> "" -> b <> "" ->
      Forall (fun c => c <> newline) (chars a) ->
      Forall (fun c => c <> newline /\ c <> "L"%char) (chars b) ->
      search (Notebook.metric_regex "train:loss")
             ("Train Epoch: " ++ a ++ "Loss: " ++ b)
      = Some [b]).
  { intros a b Ha Hb Hnla Hb2.
    apply Forall_and in Hb2 as [Hnlb HLb].
    unfold search. rewrite train_loss_items, !chars_app.
    apply search_at_head. rewrite run_lits, pushes_none.
    apply any_plus_last; [apply chars_nonempty; exact Ha | exact Hnla | | ].
    - intros v1 v2 cur Hv Hne. cbn [chars list_ascii_of_string app] in Hv.
      apply tail_split in Hv as [v1' Hv]; [ | exact Hne].
      eapply lit_absent; [ | exact Hv].
      repeat (constructor; [discriminate | ]). exact HLb.
    - rewrite pushes_none, run_lits, pushes_none, run_open.
      apply any_plus_rest; [apply chars_nonempty; exact Hb | exact Hnlb | ].
      rewrite pushes_some, run_close. cbn [run app].
      rewrite app_nil_r, rev_involutive, string_of_chars. reflexivity. }
  split; [exact General | ].
  intros epoch done total pct loss.
  replace (train_line epoch done total pct loss)
    with ("Train Epoch: "
            ++ (str epoch ++ " [" ++ str done ++ "/" ++ str total ++ " ("
                  ++ format_f 0 pct ++ "%)]" ++ tab)
            ++ "Loss: " ++ format_f 6 loss)
    by (unfold train_line; rewrite !append_assoc; reflexivity).
  apply General.
  - intros E. apply (str_nonempty epoch).
    apply (f_equal chars) in E. rewrite chars_app in E.
    apply app_eq_nil in E as [E _]. exact E.
  - intros E. apply (format_f_nonempty 6 loss). rewrite E. reflexivity.
  - rewrite !chars_app. repeat (apply Forall_app; split);
      first [ apply numeric_not;
                [reflexivity | first [apply str_numeric | apply format_f_numeric]]
            | repeat constructor; discriminate ].
  - apply Forall_and; split; (apply numeric_not; [reflexivity | apply format_f_numeric]).
Qed.

(** X7: [val:loss] captures what stands between [Average loss: ] and the
    last comma of the line; on a summary line of the script that is the
    average loss. *)
Theorem val_loss_capture :
  (forall a b,
      a <> "" ->
      Forall (fun c => c <> newline) (chars a) ->
      Forall (fun c => c <> ","%char) (chars b) ->
      search (Notebook.metric_regex "val:loss")
             ("Test set: Average loss: " ++ a ++ "," ++ b)
      = Some [a])
  /\ (forall avg correct total pct,
      search (Notebook.metric_regex "val:loss") (test_line avg correct total pct)
      = Some [format_f 4 avg]).
Proof.
  assert (General : forall a b,
      a <> "" ->
      Forall (fun c => c <> newline) (chars a) ->
      Forall (fun c => c <> ","%char) (chars b) ->
      search (Notebook.metric_regex "val:loss")
             ("Test set: Average loss: " ++ a ++ "," ++ b)
      = Some [a]).
  { intros a b Ha Hnla Hb.
    unfold search. rewrite val_loss_items, !chars_app.
    apply search_at_head. rewrite run_lits, pushes_none, run_open.
    apply any_plus_last; [apply chars_nonempty; exact Ha | exact Hnla | | ].
    - intros v1 v2 cur Hv Hne. cbn [chars list_ascii_of_string app] in Hv.
      apply tail_split in Hv as [v1' Hv]; [ | exact Hne].
      destruct cur as [acc | ]; [rewrite run_close | reflexivity].
      eapply lit_absent; [ | exact Hv]. exact Hb.
    - rewrite pushes_some, run_close. cbn [chars list_ascii_of_string app].
      rewrite run_lit, Ascii.eqb_refl. cbn [run app].
      rewrite app_nil_r, rev_involutive, string_of_chars. reflexivity. }
  split; [exact General | ].
  intros avg correct total pct.
  change (test_line avg correct total pct)
    with ("Test set: Average loss: " ++ format_f 4 avg ++ ","
            ++ (" Accuracy: " ++ str correct ++ "/" ++ str total ++ " ("
                  ++ format_f 0 pct ++ "%)")).
  apply General.
  - intros E. apply (format_f_nonempty 4 avg). rewrite E. reflexivity.
  - apply numeric_not; [reflexivity | apply format_f_numeric].
  - rewrite !chars_app. repeat (apply Forall_app; split);
      first [ apply numeric_not;
                [reflexivity | first [apply str_numeric | apply format_f_numeric]]
            | repeat constructor; discriminate ].
Qed.

(** X8: the pattern of [val:accuracy] has two groups; on a summary line
    the first holds the average loss and the second the percentage. *)
Theorem val_accuracy_groups :
  (forall a b c d,
      a <> "" -> b <> "" -> c <> "" ->
      Forall (fun x => x <> newline) (chars a) ->
      Forall (fun x => x <> newline /\ x <> ","%char) (chars b) ->
      Forall (fun x => x <> newline /\ x <> ","%char /\ x <> " "%char) (chars c) ->
      Forall (fun x => x <> ","%char /\ x <> " "%char /\ x <> "%"%char) (chars d) ->
      search (Notebook.metric_regex "val:accuracy")
             ("Test set: Average loss: " ++ a ++ ", Accuracy: " ++ b
                ++ " (" ++ c ++ "%)" ++ d)
      = Some [a; c])
  /\ (forall avg correct total pct,
      search (Notebook.metric_regex "val:accuracy") (test_line avg correct total pct)
      = Some [format_f 4 avg; format_f 0 pct]).
Proof.
  assert (General : forall a b c d,
      a <> "" -> b <> "" -> c <> "" ->
      Forall (fun x => x <> newline) (chars a) ->
      Forall (fun x => x <> newline /\ x <> ","%char) (chars b) ->
      Forall (fun x => x <> newline /\ x <> ","%char /\ x <> " "%char) (chars c) ->
      Forall (fun x => x <> ","%char /\ x <> " "%char /\ x <> "%"%char) (chars d) ->
      search (Notebook.metric_regex "val:accuracy")
             ("Test set: Average loss: " ++ a ++ ", Accuracy: " ++ b
                ++ " (" ++ c ++ "%)" ++ d)
      = Some [a; c]).
  { intros a b c d Ha Hb Hc Hnla Hb2 Hc2 Hd2.
    apply Forall_and in Hb2 as [Hnlb Hcb].
    apply Forall_and in Hc2 as [Hnlc Hc2]. apply Forall_and in Hc2 as [Hcc Hsc].
    apply Forall_and in Hd2 as [Hcd Hd2]. apply Forall_and in Hd2 as [Hsd Hpd].
    unfold search. rewrite val_accuracy_items, !chars_app.
    apply search_at_head. rewrite run_lits, pushes_none, run_open.
    apply any_plus_last; [apply chars_nonempty; exact Ha | exact Hnla | | ].
    - intros v1 v2 cur Hv Hne. cbn [chars list_ascii_of_string app] in Hv.
      apply tail_split in Hv as [v1' Hv]; [ | exact Hne].
      destruct cur as [acc | ]; [rewrite run_close | reflexivity].
      cbn [chars list_ascii_of_string map app].
      eapply lit_absent; [ | exact Hv].
      repeat (constructor; [discriminate | ]).
      apply Forall_app; split; [exact Hcb | ].
      repeat (constructor; [discriminate | ]).
      apply Forall_app; split; [exact Hcc | ].
      repeat (constructor; [discriminate | ]). exact Hcd.
    - rewrite pushes_some, run_close, run_lits, pushes_none.
      apply any_plus_last; [apply chars_nonempty; exact Hb | exact Hnlb | | ].
      + intros v1 v2 cur Hv Hne. cbn [chars list_ascii_of_string app] in Hv.
        apply tail_split in Hv as [v1' Hv]; [ | exact Hne].
        eapply lit_absent; [ | exact Hv].
        repeat (constructor; [discriminate | ]).
        apply Forall_app; split; [exact Hsc | ].
        repeat (constructor; [discriminate | ]). exact Hsd.
      + rewrite pushes_none. cbn [chars list_ascii_of_string app].
        rewrite !run_lit, !Ascii.eqb_refl. cbn [push fmap option_fmap option_map].
        rewrite run_open.
        apply any_plus_last; [apply chars_nonempty; exact Hc | exact Hnlc | | ].
        * intros v1 v2 cur Hv Hne.
          apply tail_split in Hv as [v1' Hv]; [ | exact Hne].
          destruct cur as [acc | ]; [rewrite run_close | reflexivity].
          eapply lit_absent; [ | exact Hv].
          repeat (constructor; [discriminate | ]). exact Hpd.
        * rewrite pushes_some, run_close, !run_lit, !Ascii.eqb_refl. cbn [run app].
          rewrite !app_nil_r, !rev_involutive, !string_of_chars. reflexivity. }
  split; [exact General | ].
  intros avg correct total pct.
  replace (test_line avg correct total pct)
    with ("Test set: Average loss: " ++ format_f 4 avg ++ ", Accuracy: "
            ++ (str correct ++ "/" ++ str total) ++ " (" ++ format_f 0 pct
            ++ "%)" ++ "")
    by (unfold test_line; rewrite !append_assoc; reflexivity).
  apply General.
  - intros E. apply (format_f_nonempty 4 avg). rewrite E. reflexivity.
  - intros E. apply (str_nonempty correct).
    apply (f_equal chars) in E. rewrite chars_app in E.
    apply app_eq_nil in E as [E _]. exact E.
  - intros E. apply (format_f_nonempty 0 pct). rewrite E. reflexivity.
  - apply numeric_not; [reflexivity | apply format_f_numeric].
  - rewrite !chars_app. apply Forall_and; split;
      repeat (apply Forall_app; split);
      first [ apply numeric_not; [reflexivity | apply str_numeric]
            | repeat constructor; discriminate ].
  - apply Forall_and; split; [ | apply Forall_and; split];
      (apply numeric_not; [reflexivity | apply format_f_numeric]).
  - constructor.
Qed.

End FurtherMetrics.

Section FurtherBatches.
Context {T : Torch}.
Import Py Script.

Lemma data_loader_inr d n ld :
  data_loader d n = inr ld -> 0 < n /\ dataset ld = d /\ per_batch ld = n.
Proof.
  unfold data_loader. destruct (Z.leb_spec n 0); [discriminate | ].
  intros [= <-]. auto.
Qed.

(** [len(loader)] is the number of samples over the batch size, rounded
    up. *)
Lemma loader_len_bounds ld :
  0 < per_batch ld ->
  len (dataset ld) <= loader_len ld * per_batch ld < len (dataset ld) + per_batch ld.
Proof.
  intros Hb. unfold loader_len.
  pose proof (Z.div_mod (len (dataset ld) + per_batch ld - 1) (per_batch ld)) as E.
  pose proof (Z.mod_pos_bound (len (dataset ld) + per_batch ld - 1) (per_batch ld) Hb).
  lia.
Qed.

Lemma loader_len_nonneg ld : 0 < per_batch ld -> 0 <= loader_len ld.
Proof.
  intros Hb. pose proof (loader_len_bounds ld Hb). unfold len in *. nia.
Qed.

Lemma batches_concat ld l :
  0 < per_batch ld -> len l = len (dataset ld) -> concat (batches ld l) = l.
Proof.
  intros Hb Hl. unfold batches. rewrite concat_batches.
  apply firstn_all2. pose proof (loader_len_bounds ld Hb).
  pose proof (loader_len_nonneg ld Hb).
  apply Nat2Z.inj_le. rewrite Nat2Z.inj_mul, !Z2Nat.id by lia.
  unfold len in *. lia.
Qed.

(** X9: one pass over a loader hands out every sample of the data set
    exactly once, whatever the shuffle, and neither prints nor writes. *)
Theorem pass_visits_each_sample_once {L : TorchLaws T} d n ld p :
  data_loader d n = inr ld ->
  exists bs p',
    iterate ld p = (inr bs, p')
    /\ Permutation (concat bs) d
    /\ fs p' = fs p /\ stdout p' = stdout p.
Proof.
  intros Hld. apply data_loader_inr in Hld as (Hn & Hd & Hb).
  unfold iterate, bind, draw, ret.
  pose proof (shuffle_perm (gen p) (dataset ld)) as Hperm.
  destruct (shuffle (gen p) (dataset ld)) as [l g] eqn:Hs. cbn [fst] in Hperm.
  eexists _, _. split; [reflexivity | ]. cbn [fs stdout].
  split; [ | auto].
  rewrite batches_concat.
  - rewrite <- Hd. exact Hperm.
  - lia.
  - unfold len. f_equal. apply Permutation_length. exact Hperm.
Qed.

(** X10: a loader cuts a list as long as its data set into [len(loader)]
    batches; batch [k] holds [batch_size] samples, or what is left after
    [k * batch_size] when that is less, and no batch is empty. *)
Theorem batch_sizes d n ld (l : list sample) :
  data_loader d n = inr ld ->
  len l = len d ->
  len (batches ld l) = loader_len ld
  /\ forall k b, batches ld l !! k = Some b ->
       len b = Z.min n (len d - Z.of_nat k * n) /\ 0 < len b.
Proof.
  intros Hld Hl. apply data_loader_inr in Hld as (Hn & Hd & Hb).
  pose proof (loader_len_bounds ld ltac:(lia)) as Hbound.
  pose proof (loader_len_nonneg ld ltac:(lia)) as Hpos.
  rewrite Hd, Hb in Hbound.
  split.
  - unfold batches, len. rewrite length_map, length_seq. lia.
  - intros k b Hk. unfold batches in Hk.
    rewrite list_lookup_fmap in Hk.
    destruct (seq 0 (Z.to_nat (loader_len ld)) !! k) as [j | ] eqn:Hj; [ | discriminate].
    apply lookup_seq in Hj as [-> Hlt]. cbn in Hk. injection Hk as <-.
    assert (Hk : Z.of_nat k * n < len d) by nia.
    unfold batch_at, len in *. rewrite length_take, length_drop, Hb.
    split; [ | nia].
    rewrite Nat2Z.inj_min, Nat2Z.inj_sub, Nat2Z.inj_mul, Z2Nat.id by nia.
    rewrite Hl. reflexivity.
Qed.

End FurtherBatches.

Section FurtherArtifact.
Import Py Script.

Lemma ends_with_slash_app d : ends_with_slash (d ++ "/") = true.
Proof.
  induction d as [ | c d IH]; [reflexivity | ].
  change (String c d ++ "/") with (String c (d ++ "/")).
  cbn [ends_with_slash]. rewrite IH.
  destruct (d ++ "/") eqn:E; [ | reflexivity].
  destruct d; discriminate.
Qed.

(** X11: a model directory written with a closing slash names the same
    artifact as the directory written without it. *)
Theorem trailing_slash_same_artifact (args args' : namespace) :
  model_dir args <> "" ->
  ends_with_slash (model_dir args) = false ->
  model_dir args' = model_dir args ++ "/" ->
  model_path args' = model_path args.
Proof.
  intros Hne Hend Hdir. unfold model_path.
  rewrite (path_join_plain (model_dir args)); [ | exact Hne | exact Hend | reflexivity].
  unfold path_join. rewrite Hdir, ends_with_slash_app, orb_true_r.
  cbn [starts_with_slash]. apply append_assoc.
Qed.

End FurtherArtifact.

Section FurtherInputs.
Import Py Script.



Lemma overrides_shadow_environment_witness :
  parse_args Example.environ
    ["--model-dir"; "/tmp/model"; "--data-dir=/tmp/data"; "--num-g"; "0"]
    Example.hyper
  = parse_args (<["SM_NUM_GPUS" := "many"]> Example.environ)
      ["--model-dir"; "/tmp/model"; "--data-dir=/tmp/data"; "--num-g"; "0"]
      Example.hyper.
Proof.
  apply overrides_shadow_environment.
  - intros v [<- | [<- | [<- | []]]]; vm_compute; eexists; reflexivity.
  - intros v [<- | [<- | [<- | []]]]; vm_compute; eexists; reflexivity.
  - vm_compute; eexists; reflexivity.
  - vm_compute; eexists; reflexivity.
  - vm_compute; eexists; reflexivity.
Defined.

Lemma blank_count_is_refused_witness :
  (exists status,
      parse_args (<["SM_NUM_GPUS" := " "]> Example.environ) ["--model-dir"; "/tmp/model"]
        Example.hyper
      = inl (SystemExit status))
  /\ parse_args (<["SM_NUM_GPUS" := " "]> Example.environ) [] Example.hyper
     = inl (SystemExit 2).
Proof.
  apply (blank_count_is_refused _ _ _ " ").
  - vm_compute; eexists; reflexivity.
  - vm_compute; eexists; reflexivity.
  - vm_compute; reflexivity.
  - reflexivity.
  - repeat constructor.
Defined.

Lemma trailing_slash_same_artifact_witness :
  model_path {| hp := Example.hyper; model_dir := "/opt/ml/model/";
                data_dir := "/opt/ml/input/data/training"; num_gpus := 1 |}
  = model_path Example.host_args.
Proof.
  apply trailing_slash_same_artifact.
  - discriminate.
  - reflexivity.
  - reflexivity.
Defined.

Lemma pass_visits_each_sample_once_witness :
  exists bs p',
    iterate (T := Toy.torch) (Loader (fst Example.small) 4) (Example.boot 7)
    = (inr bs, p')
    /\ Permutation (concat bs) (fst Example.small)
    /\ fs p' = fs (Example.boot 7) /\ stdout p' = stdout (Example.boot 7).
Proof.
  apply (pass_visits_each_sample_once (T := Toy.torch) (L := toy_laws)
           (fst Example.small) 4).
  reflexivity.
Defined.

Lemma batch_sizes_witness :
  len (batches (T := Toy.torch) (Loader (fst Example.small) 4) (rev (fst Example.small)))
  = loader_len (T := Toy.torch) (Loader (fst Example.small) 4)
  /\ forall k b,
       batches (T := Toy.torch) (Loader (fst Example.small) 4) (rev (fst Example.small)) !! k
       = Some b ->
       len b = Z.min 4 (len (fst Example.small) - Z.of_nat k * 4) /\ 0 < len b.
Proof.
  apply (batch_sizes (T := Toy.torch) (fst Example.small) 4).
  - reflexivity.
  - reflexivity.
Defined.

Lemma metric_needs_its_prefix_witness :
  exists pre post,
    nth 0 Notebook.sample_output "" = pre ++ "Train Epoch: " ++ post.
Proof.
  apply (proj1 (metric_needs_its_prefix (nth 0 Notebook.sample_output "") ["0.161597"])
           "train:loss").
  - left. reflexivity.
  - vm_compute. reflexivity.
Defined.

Lemma train_loss_capture_witness :
  Re.search (Notebook.metric_regex "train:loss") (nth 0 Notebook.sample_output "")
  = Some ["0.161597"].
Proof.
  apply (proj1 train_loss_capture ("1 [57600/60000 (96%)]" ++ tab) "0.161597").
  - discriminate.
  - discriminate.
  - unfold chars; simpl; repeat constructor; discriminate.
  - unfold chars; simpl; repeat constructor; discriminate.
Defined.

Lemma val_loss_capture_witness :
  Re.search (Notebook.metric_regex "val:loss") (nth 5 Notebook.sample_output "")
  = Some ["0.0602"].
Proof.
  apply (proj1 val_loss_capture "0.0602" " Accuracy: 9799/10000 (98%)").
  - discriminate.
  - unfold chars; simpl; repeat constructor; discriminate.
  - unfold chars; simpl; repeat constructor; discriminate.
Defined.

Lemma val_accuracy_groups_witness :
  Re.search (Notebook.metric_regex "val:accuracy") (nth 5 Notebook.sample_output "")
  = Some ["0.0602"; "98"].
Proof.
  apply (proj1 val_accuracy_groups "0.0602" "9799/10000" "98" "").
  - discriminate.
  - discriminate.
  - discriminate.
  - unfold chars; simpl; repeat constructor; discriminate.
  - unfold chars; simpl; repeat constructor; discriminate.
  - unfold chars; simpl; repeat constructor; discriminate.
  - constructor.
Defined.

End FurtherInputs.

